(** * The interaction controller of [frontend/app.js]

    A shallow embedding of the decision logic of the command-center
    front end: the gesture classifier [detectGesture], the emission gate
    [updateGestureUI], the landmark callback [onResults], the chat
    dispatcher [sendChatMessage] and the connect / microphone click
    handlers, together with the asynchronous suspension points ([await])
    at which other events of the single-threaded event loop interleave.

    Conventions.
    - JavaScript numbers that hold landmark coordinates are IEEE-754
      binary64 values: they are modelled by Rocq's primitive floats, whose
      [PrimFloat.ltb] is the JavaScript [<] (false on NaN).
    - [Date.now()] returns an integral number of milliseconds; timestamps
      are modelled in [Z], where the subtraction and the comparison of
      the source are exact.
    - JavaScript strings are sequences of UTF-16 code units.
    - Calls into the browser, MediaPipe and the LiveKit SDK are recorded
      as a trace of [Effect]s, in program order. *)

From Stdlib Require Import ZArith NArith List Bool String Ascii Floats Lia.
From stdpp Require Import base option list gmap.
Import ListNotations.

(* ===================================================================== *)
(** * JavaScript strings *)
(* ===================================================================== *)

(** A string is its sequence of UTF-16 code units. *)
Definition jsstring : Type := list N.

(** An ASCII literal of the source, as a JavaScript string. *)
Definition lit (s : string) : jsstring :=
  map N_of_ascii (list_ascii_of_string s).
Arguments lit s%_string.

(** ECMAScript WhiteSpace and LineTerminator code points, the characters
    [String.prototype.trim] strips.  All of them are in the Basic
    Multilingual Plane, so the test on code units is exact. *)
Definition isWhiteSpace (c : N) : bool :=
  existsb (N.eqb c)
    [0x09; 0x0A; 0x0B; 0x0C; 0x0D; 0x20; 0xA0; 0x1680;
     0x2028; 0x2029; 0x202F; 0x205F; 0x3000; 0xFEFF]%N
  || ((0x2000 <=? c)%N && (c <=? 0x200A)%N).

Fixpoint trimStart (s : jsstring) : jsstring :=
  match s with
  | c :: rest => if isWhiteSpace c then trimStart rest else s
  | [] => []
  end.

Definition trimEnd (s : jsstring) : jsstring :=
  reverse (trimStart (reverse s)).

(** [String.prototype.trim]. *)
Definition trim (s : jsstring) : jsstring := trimEnd (trimStart s).

(** A string made of white space only (the empty string included). *)
Definition blank (s : jsstring) : Prop := Forall (λ c, isWhiteSpace c = true) s.

(* ===================================================================== *)
(** * Gesture classifier *)
(* ===================================================================== *)

(** The four strings [detectGesture] can return. *)
Inductive Gesture : Type := NONE | Open_Palm | Closed_Fist | Thumb_Up.

Global Instance Gesture_eq_dec : EqDecision Gesture.
Proof. solve_decision. Defined.

(** The JavaScript string a gesture value is. *)
Definition gesture_text (g : Gesture) : jsstring :=
  match g with
  | NONE => lit "NONE"
  | Open_Palm => lit "Open_Palm"
  | Closed_Fist => lit "Closed_Fist"
  | Thumb_Up => lit "Thumb_Up"
  end.

(** One normalized landmark of MediaPipe Hands. *)
Module Landmark.
Record t : Type := mk { x : float; y : float }.
End Landmark.

(** [a < b] on JavaScript numbers. *)
Definition js_lt (a b : float) : bool := PrimFloat.ltb a b.

(** [detectGesture(landmarks)].  Indexing past the end of the array
    yields [undefined], and reading [.x] or [.y] of it throws a
    TypeError: that is the result [None].  All ten landmarks are read
    before the first branch is taken. *)
Definition detectGesture (landmarks : list Landmark.t) : option Gesture :=
  l4 ← landmarks !! 4; l3 ← landmarks !! 3;
  let thumbIsOpen := js_lt (Landmark.x l4) (Landmark.x l3) in
  l8 ← landmarks !! 8; l6 ← landmarks !! 6;
  let indexIsOpen := js_lt (Landmark.y l8) (Landmark.y l6) in
  l12 ← landmarks !! 12; l10 ← landmarks !! 10;
  let middleIsOpen := js_lt (Landmark.y l12) (Landmark.y l10) in
  l16 ← landmarks !! 16; l14 ← landmarks !! 14;
  let ringIsOpen := js_lt (Landmark.y l16) (Landmark.y l14) in
  l20 ← landmarks !! 20; l18 ← landmarks !! 18;
  let pinkyIsOpen := js_lt (Landmark.y l20) (Landmark.y l18) in
  if indexIsOpen && middleIsOpen && ringIsOpen && pinkyIsOpen then
    Some Open_Palm
  else if negb indexIsOpen && negb middleIsOpen
          && negb ringIsOpen && negb pinkyIsOpen then
    if js_lt (Landmark.y l4) (Landmark.y l3)
       && js_lt (Landmark.y l4) (Landmark.y l8)
    then Some Thumb_Up
    else Some Closed_Fist
  else Some NONE.

(** The y-coordinate of landmark [i], when the frame has one. *)
Definition y_at (landmarks : list Landmark.t) (i : nat) : option float :=
  Landmark.y <$> landmarks !! i.

(** The landmark indices whose y-coordinate the classifier compares. *)
Definition y_indices : list nat := [3; 4; 6; 8; 10; 12; 14; 16; 18; 20].

(** "Tip [tip] is strictly above joint [joint]" on a frame. *)
Definition above (landmarks : list Landmark.t) (tip joint : nat) : Prop :=
  ∃ a b, y_at landmarks tip = Some a ∧ y_at landmarks joint = Some b
         ∧ js_lt a b = true.

Definition not_above (landmarks : list Landmark.t) (tip joint : nat) : Prop :=
  ∃ a b, y_at landmarks tip = Some a ∧ y_at landmarks joint = Some b
         ∧ js_lt a b = false.

(* ===================================================================== *)
(** * The environment: DOM, transport and their effects *)
(* ===================================================================== *)

(** The second argument of [addLog]: 'system', 'user', 'agent', 'error'. *)
Inductive LogType : Type := LogSystem | LogUser | LogAgent | LogError.

(** The DOM elements the handlers write to. *)
Inductive Element : Type :=
  connectBtn | micBtn | connectionStatus | gestureResult | agentStatusText
| coreElement.

Inductive RoomEvent : Type := EvDataReceived | EvActiveSpeakersChanged.

(** [new LiveKitClient.Room] allocates a fresh object; a room is named by
    its allocation number. *)
Definition RoomId : Type := nat.

Definition API_URL : jsstring := lit "http://localhost:8000".
Definition LIVEKIT_URL : jsstring := lit "ws://localhost:7880".

(** What a handler does to the outside world.  [PublishData r data topic]
    is [r.localParticipant.publishData(new TextEncoder().encode(data),
    {reliable: true, topic})]: the one place where an outbound message is
    built and handed to the transport. *)
Inductive Effect : Type :=
| AddLog (text : jsstring) (type : LogType)
| SetInnerText (e : Element) (text : jsstring)
| SetStyle (e : Element) (property value : jsstring)
| ClassAdd (e : Element) (cls : jsstring)
| ClassRemove (e : Element) (cls : jsstring)
| ClassToggle (e : Element) (cls : jsstring) (force : bool)
| SetCanvasSize (width height : Z)
| CanvasDrawImage
| CanvasDrawHand (landmarks : list Landmark.t)
| CanvasRestore
| CameraStart
| Fetch (url : jsstring)
| ResponseJson
| NewRoom (r : RoomId)
| RoomConnect (r : RoomId) (url token : jsstring)
| RoomOn (r : RoomId) (ev : RoomEvent)
| SetMicrophoneEnabled (r : RoomId) (enabled : bool)
| PublishData (r : RoomId) (data topic : jsstring)
| RoomDisconnect (r : RoomId)
| ConsoleError (message : jsstring)
| Uncaught (message : jsstring).

(** The suspension points of the three [async] functions: what remains
    to run once the awaited promise settles. *)
Inductive Cont : Type :=
| K_fetch       (* connectToLiveKit, at [await fetch(...)] *)
| K_json        (* connectToLiveKit, at [await response.json()] *)
| K_connect     (* connectToLiveKit, at [await room.connect(...)] *)
| K_enableMic   (* connectToLiveKit, at [await ...setMicrophoneEnabled(true)] *)
| K_publish     (* sendChatMessage, at [await ...publishData(...)] *)
| K_setMic.     (* micBtn handler, at [await ...setMicrophoneEnabled(isMicOn)] *)

(** How an awaited promise settles. *)
Inductive Outcome : Type :=
| Response (ok : bool)        (* fetch: a response with this [ok] flag *)
| Json (token : jsstring)     (* response.json(): data with this [token] *)
| Fulfilled                   (* a promise whose value is not used *)
| Rejected (message : jsstring).

(* ===================================================================== *)
(** * Program state *)
(* ===================================================================== *)

(** The module-level [let] variables of app.js, the value of the chat
    text box, and the book-keeping of the event loop: the suspended
    async calls and the allocation counters. *)
Record State : Type := mkState {
  room : option RoomId;
  isConnected : bool;
  isMicOn : bool;
  lastGesture : Gesture;
  lastGestureTime : Z;
  chatInput_value : jsstring;
  pending : gmap nat Cont;
  nextTask : nat;
  nextRoom : nat
}.

Definition init : State :=
  mkState None false false NONE 0 [] ∅ 0 0.

Definition set_isConnected (v : bool) (s : State) : State :=
  mkState (room s) v (isMicOn s) (lastGesture s) (lastGestureTime s)
          (chatInput_value s) (pending s) (nextTask s) (nextRoom s).
Definition set_isMicOn (v : bool) (s : State) : State :=
  mkState (room s) (isConnected s) v (lastGesture s) (lastGestureTime s)
          (chatInput_value s) (pending s) (nextTask s) (nextRoom s).
Definition set_lastGesture (v : Gesture) (s : State) : State :=
  mkState (room s) (isConnected s) (isMicOn s) v (lastGestureTime s)
          (chatInput_value s) (pending s) (nextTask s) (nextRoom s).
Definition set_lastGestureTime (v : Z) (s : State) : State :=
  mkState (room s) (isConnected s) (isMicOn s) (lastGesture s) v
          (chatInput_value s) (pending s) (nextTask s) (nextRoom s).
Definition set_chatInput_value (v : jsstring) (s : State) : State :=
  mkState (room s) (isConnected s) (isMicOn s) (lastGesture s)
          (lastGestureTime s) v (pending s) (nextTask s) (nextRoom s).
Definition set_pending (v : gmap nat Cont) (s : State) : State :=
  mkState (room s) (isConnected s) (isMicOn s) (lastGesture s)
          (lastGestureTime s) (chatInput_value s) v (nextTask s) (nextRoom s).

(** [new LiveKitClient.Room(...)] assigned to [room]. *)
Definition new_room (s : State) : State :=
  mkState (Some (nextRoom s)) (isConnected s) (isMicOn s) (lastGesture s)
          (lastGestureTime s) (chatInput_value s) (pending s) (nextTask s)
          (S (nextRoom s)).

(** A fresh async call suspended at [k]. *)
Definition spawn (k : Cont) (s : State) : State :=
  mkState (room s) (isConnected s) (isMicOn s) (lastGesture s)
          (lastGestureTime s) (chatInput_value s)
          (<[nextTask s := k]> (pending s)) (S (nextTask s)) (nextRoom s).

(** One synchronous run of an async function body: the new state, the
    effects, and the next suspension point ([None]: it returned). *)
Definition Segment : Type := State * list Effect * option Cont.

(* ===================================================================== *)
(** * LiveKit integration *)
(* ===================================================================== *)

(** The [catch] block of [connectToLiveKit]. *)
Definition catch_connect (message : jsstring) : list Effect :=
  [ConsoleError message;
   AddLog (lit "Connection Failed: " ++ message) LogError;
   ClassAdd connectionStatus (lit "error")].

(** [connectToLiveKit()], up to its first [await]. *)
Definition connectToLiveKit (s : State) : Segment :=
  if isConnected s then (s, [], None)
  else
    (s, [AddLog (lit "Requesting access token...") LogSystem;
         Fetch (API_URL ++ lit "/token")], Some K_fetch).

(** [sendChatMessage()], up to its [await]. *)
Definition sendChatMessage (s : State) : Segment :=
  let text := trim (chatInput_value s) in
  match text, room s with
  | [], _ => (s, [], None)
  | _ :: _, None => (s, [], None)
  | _ :: _, Some r =>
      (s, [AddLog (lit "You: " ++ text) LogUser;
           PublishData r text (lit "chat_message")], Some K_publish)
  end.

(** The click handler of [micBtn], up to its [await]. *)
Definition micBtn_click (s : State) : Segment :=
  match room s with
  | None => (s, [], None)
  | Some r =>
      let s1 := set_isMicOn (negb (isMicOn s)) s in
      (s1, [SetMicrophoneEnabled r (isMicOn s1)], Some K_setMic)
  end.

(** The code after each [await], run when the awaited promise settles
    with [o].  [None]: this promise cannot settle that way.  The globals
    are read when the code runs, not when the call was made. *)
Definition resume (k : Cont) (o : Outcome) (s : State) : option Segment :=
  match k, o with
  | K_fetch, Response true => Some (s, [ResponseJson], Some K_json)
  | K_fetch, Response false =>
      Some (s, catch_connect (lit "Failed to get token"), None)
  | K_json, Json token =>
      Some (new_room s,
            [AddLog (lit "Token acquired. Connecting to LiveKit...") LogSystem;
             NewRoom (nextRoom s);
             RoomConnect (nextRoom s) LIVEKIT_URL token], Some K_connect)
  | K_connect, Fulfilled =>
      let s1 := set_isConnected true s in
      let online :=
        [ClassAdd connectionStatus (lit "connected");
         SetInnerText connectBtn (lit "DISCONNECT");
         ClassRemove micBtn (lit "disabled");
         SetInnerText agentStatusText (lit "ONLINE");
         AddLog (lit "L.I.S.A System Online. Voice Channel Active.") LogSystem] in
      match room s1 with
      | Some r =>
          Some (s1, online ++ [RoomOn r EvDataReceived;
                               RoomOn r EvActiveSpeakersChanged;
                               SetMicrophoneEnabled r true], Some K_enableMic)
      | None =>
          Some (s1, online ++ catch_connect (lit "TypeError"), None)
      end
  | K_enableMic, Fulfilled =>
      Some (set_isMicOn true s, [SetInnerText micBtn (lit "MUTE MIC")], None)
  | (K_fetch | K_json | K_connect | K_enableMic), Rejected message =>
      Some (s, catch_connect message, None)
  | K_publish, Fulfilled => Some (set_chatInput_value [] s, [], None)
  | K_setMic, Fulfilled =>
      Some (s, [SetInnerText micBtn
                  (if isMicOn s then lit "MUTE MIC" else lit "UNMUTE MIC");
                ClassToggle micBtn (lit "active") (isMicOn s)], None)
  | (K_publish | K_setMic), Rejected message => Some (s, [Uncaught message], None)
  | _, _ => None
  end.

(** What the click handler of [connectBtn] does after
    [await connectToLiveKit()]. *)
Definition click_tail : list Effect := [CameraStart; SetCanvasSize 640 480].

(** The caller's code that follows the completion of the async call
    suspended at [k]: only [connectToLiveKit] has an awaiting caller. *)
Definition tail_of (k : Cont) : list Effect :=
  match k with
  | K_fetch | K_json | K_connect | K_enableMic => click_tail
  | K_publish | K_setMic => []
  end.

(** Start an async call: park it when it suspends, run the caller's
    [tail] when it returns at once. *)
Definition launch (seg : Segment) (tail : list Effect) : State * list Effect :=
  match seg with
  | (s, fx, Some k) => (spawn k s, fx)
  | (s, fx, None) => (s, fx ++ tail)
  end.

(** The click handler of [connectBtn]. *)
Definition connectBtn_click (s : State) : State * list Effect :=
  if negb (isConnected s) then launch (connectToLiveKit s) click_tail
  else
    (set_isConnected false s,
     match room s with Some r => [RoomDisconnect r] | None => [] end
     ++ [SetInnerText connectBtn (lit "INITIALIZE CONNECTION");
         ClassRemove connectionStatus (lit "connected");
         AddLog (lit "Disconnected.") LogSystem]).

(** The awaited promise of task [tid] settles with [o]. *)
Definition settle (tid : nat) (o : Outcome) (s : State) : State * list Effect :=
  match pending s !! tid with
  | None => (s, [])
  | Some k =>
      match resume k o s with
      | None => (s, [])
      | Some (s1, fx, Some k') =>
          (set_pending (<[tid := k']> (pending s1)) s1, fx)
      | Some (s1, fx, None) =>
          (set_pending (delete tid (pending s1)) s1, fx ++ tail_of k)
      end
  end.

(** The [DataReceived] listener; [strData] is the decoded payload. *)
Definition onDataReceived (strData topic : jsstring) : list Effect :=
  if bool_decide (topic = lit "chat_message")
  then [AddLog (lit "L.I.S.A: " ++ strData) LogAgent]
  else [].

(** The [ActiveSpeakersChanged] listener. *)
Definition onActiveSpeakersChanged (speakers : list jsstring) : list Effect :=
  if (0 <? length speakers)%nat then
    [SetInnerText agentStatusText (lit "SPEAKING...");
     SetStyle coreElement (lit "animationDuration") (lit "0.5s")]
  else
    [SetInnerText agentStatusText (lit "ONLINE");
     SetStyle coreElement (lit "animationDuration") (lit "2s")].

(* ===================================================================== *)
(** * Hand tracking *)
(* ===================================================================== *)

(** [updateGestureUI(gesture)], with [now] the value [Date.now()]
    returns in it. *)
Definition updateGestureUI (gesture : Gesture) (now : Z) (s : State)
  : State * list Effect :=
  let ui := [SetInnerText gestureResult (gesture_text gesture);
             SetStyle gestureResult (lit "color") (lit "#00f3ff")] in
  if (now - lastGestureTime s >? 2000)%Z
     && negb (bool_decide (gesture = lastGesture s)) then
    let s1 := set_lastGestureTime now (set_lastGesture gesture s) in
    match room s1, isConnected s1 with
    | Some r, true =>
        (s1, ui ++ [PublishData r (gesture_text gesture) (lit "gesture");
                    AddLog (lit "Gesture Sent: " ++ gesture_text gesture)
                           LogSystem])
    | _, _ => (s1, ui)
    end
  else (s, ui).

(** The [for ... of results.multiHandLandmarks] loop of [onResults].
    [now k] is what [Date.now()] returns while hand number [k] of the
    list is processed.  The boolean is false when [detectGesture] threw,
    which ends the loop. *)
Fixpoint forHands (hands : list (list Landmark.t)) (now : nat → Z) (k : nat)
    (s : State) : State * list Effect * bool :=
  match hands with
  | [] => (s, [], true)
  | landmarks :: rest =>
      match detectGesture landmarks with
      | None => (s, [CanvasDrawHand landmarks; Uncaught (lit "TypeError")], false)
      | Some gesture =>
          let '(s1, fx1) :=
            if bool_decide (gesture ≠ NONE)
            then updateGestureUI gesture (now k) s
            else (s, []) in
          let '(s2, fx2, ok) := forHands rest now (S k) s1 in
          (s2, CanvasDrawHand landmarks :: fx1 ++ fx2, ok)
      end
  end.

(** [onResults(results)]; [multiHandLandmarks] is [None] when the field
    is absent. *)
Definition onResults (multiHandLandmarks : option (list (list Landmark.t)))
    (now : nat → Z) (s : State) : State * list Effect :=
  match multiHandLandmarks with
  | Some hands =>
      let '(s1, fx, ok) := forHands hands now 0 s in
      (s1, CanvasDrawImage :: fx ++ (if ok then [CanvasRestore] else []))
  | None => (s, [CanvasDrawImage; CanvasRestore])
  end.

(** The options passed to [hands.setOptions]. *)
Record HandsOptions : Type := {
  maxNumHands : nat;
  modelComplexity : nat;
  minDetectionConfidence : float;
  minTrackingConfidence : float
}.

Definition hands_options : HandsOptions :=
  {| maxNumHands := 1; modelComplexity := 1;
     minDetectionConfidence := 0.5; minTrackingConfidence := 0.5 |}.

(* ===================================================================== *)
(** * The event loop *)
(* ===================================================================== *)

(** What the browser, the user and the SDKs deliver to the page. *)
Inductive Event : Type :=
| Click_connectBtn
| Click_micBtn
| Click_sendBtn
| Keypress_chatInput (key : jsstring)
| Input_chatInput (value : jsstring)      (* the user edits the text box *)
| Results (multiHandLandmarks : option (list (list Landmark.t)))
          (now : nat → Z)
| Settled (tid : nat) (o : Outcome)
| DataReceived (strData topic : jsstring)
| ActiveSpeakersChanged (speakers : list jsstring).

Definition step (e : Event) (s : State) : State * list Effect :=
  match e with
  | Click_connectBtn => connectBtn_click s
  | Click_micBtn => launch (micBtn_click s) []
  | Click_sendBtn => launch (sendChatMessage s) []
  | Keypress_chatInput key =>
      if bool_decide (key = lit "Enter") then launch (sendChatMessage s) []
      else (s, [])
  | Input_chatInput value => (set_chatInput_value value s, [])
  | Results multiHandLandmarks now => onResults multiHandLandmarks now s
  | Settled tid o => settle tid o s
  | DataReceived strData topic => (s, onDataReceived strData topic)
  | ActiveSpeakersChanged speakers => (s, onActiveSpeakersChanged speakers)
  end.

(** A session history, from state [s]: the final state and the whole
    trace. *)
Fixpoint run (events : list Event) (s : State) : State * list Effect :=
  match events with
  | [] => (s, [])
  | e :: rest =>
      let '(s1, fx1) := step e s in
      let '(s2, fx2) := run rest s1 in
      (s2, fx1 ++ fx2)
  end.

(* ===================================================================== *)
(** * Observations *)
(* ===================================================================== *)

(** The outbound messages of a trace: topic and payload text. *)
Record OutboundMessage : Type := { topic : jsstring; payload : jsstring }.

Definition outbound_of (e : Effect) : option OutboundMessage :=
  match e with
  | PublishData _ data t => Some {| topic := t; payload := data |}
  | _ => None
  end.

Definition outbound (fx : list Effect) : list OutboundMessage :=
  omap outbound_of fx.

(** The microphone operations of a trace. *)
Definition mic_ops (fx : list Effect) : list bool :=
  omap (λ e, match e with SetMicrophoneEnabled _ b => Some b | _ => None end) fx.

(** The token fetches and transport connect attempts of a trace. *)
Definition is_connect_attempt (e : Effect) : bool :=
  match e with Fetch _ | RoomConnect _ _ _ => true | _ => false end.

Definition connect_attempts (fx : list Effect) : list Effect :=
  filter (λ e, is_connect_attempt e = true) fx.

(** The two fields the emission gate owns. *)
Definition gestureState (s : State) : Gesture * Z :=
  (lastGesture s, lastGestureTime s).

(** The three-state reading of the session: connected when
    [isConnected] holds; otherwise connecting while a call of
    [connectToLiveKit] is suspended before [isConnected = true]. *)
Inductive Lifecycle : Type := DISCONNECTED | CONNECTING | CONNECTED.

Definition in_flight (k : Cont) : bool :=
  match k with K_fetch | K_json | K_connect => true | _ => false end.

Definition lifecycle (s : State) : Lifecycle :=
  if isConnected s then CONNECTED
  else if existsb (λ p, in_flight p.2) (map_to_list (pending s))
       then CONNECTING else DISCONNECTED.

(* ===================================================================== *)
(** * Concrete frames and histories used as inputs below *)
(* ===================================================================== *)

Definition pt (px py : float) : Landmark.t := Landmark.mk px py.

(** Wrist low in the image, every fingertip above its joint. *)
Definition open_hand : list Landmark.t :=
  [pt 0.5 1; pt 0.5 0.875; pt 0.5 0.75; pt 0.375 0.625; pt 0.25 0.5;
   pt 0.5 0.75; pt 0.5 0.5; pt 0.5 0.375; pt 0.5 0.25;
   pt 0.5 0.75; pt 0.5 0.5; pt 0.5 0.375; pt 0.5 0.25;
   pt 0.5 0.75; pt 0.5 0.5; pt 0.5 0.375; pt 0.5 0.25;
   pt 0.5 0.75; pt 0.5 0.5; pt 0.5 0.375; pt 0.5 0.25]%float.

(** Every fingertip below its joint, thumb tip level with the index tip. *)
Definition fist_hand : list Landmark.t :=
  [pt 0.5 1; pt 0.5 0.875; pt 0.5 0.75; pt 0.375 0.625; pt 0.25 0.75;
   pt 0.5 0.75; pt 0.5 0.5; pt 0.5 0.625; pt 0.5 0.75;
   pt 0.5 0.75; pt 0.5 0.5; pt 0.5 0.625; pt 0.5 0.75;
   pt 0.5 0.75; pt 0.5 0.5; pt 0.5 0.625; pt 0.5 0.75;
   pt 0.5 0.75; pt 0.5 0.5; pt 0.5 0.625; pt 0.5 0.75]%float.

(** Index finger up, the other three curled. *)
Definition pointing_hand : list Landmark.t :=
  [pt 0.5 1; pt 0.5 0.875; pt 0.5 0.75; pt 0.375 0.625; pt 0.25 0.75;
   pt 0.5 0.75; pt 0.5 0.5; pt 0.5 0.375; pt 0.5 0.25;
   pt 0.5 0.75; pt 0.5 0.5; pt 0.5 0.625; pt 0.5 0.75;
   pt 0.5 0.75; pt 0.5 0.5; pt 0.5 0.625; pt 0.5 0.75;
   pt 0.5 0.75; pt 0.5 0.5; pt 0.5 0.625; pt 0.5 0.75]%float.

(** [open_hand] mirrored and shifted in x, wrist and the joints the
    classifier does not read moved in y. *)
Definition open_hand_moved : list Landmark.t :=
  [pt 0.25 0.5; pt 0.125 0.25; pt 0.75 0.125; pt 0.125 0.625; pt 0.875 0.5;
   pt 0 0; pt 1 0.5; pt 0.25 1; pt 0.75 0.25;
   pt 0 0; pt 1 0.5; pt 0.25 1; pt 0.75 0.25;
   pt 0 0; pt 1 0.5; pt 0.25 1; pt 0.75 0.25;
   pt 0 0; pt 1 0.5; pt 0.25 1; pt 0.75 0.25]%float.

(** A successful connect: click, token response, its JSON body, the
    transport connect and the default microphone publish. *)
Definition connect_ok : list Event :=
  [Click_connectBtn; Settled 0 (Response true); Settled 0 (Json (lit "jwt"));
   Settled 0 Fulfilled; Settled 0 Fulfilled].

(** The state of a connected session. *)
Definition online : State := (run connect_ok init).1.

(** Connected, then disconnected by a second click on [connectBtn]. *)
Definition disconnected_again : State :=
  (run (connect_ok ++ [Click_connectBtn]) init).1.

Definition gesture_message (g : Gesture) : OutboundMessage :=
  {| topic := lit "gesture"; payload := gesture_text g |}.

Definition chat_message (text : jsstring) : OutboundMessage :=
  {| topic := lit "chat_message"; payload := text |}.

Definition is_results (e : Event) : bool :=
  match e with Results _ _ => true | _ => false end.

(* ===================================================================== *)
(** * Further observations on traces and histories *)
(* ===================================================================== *)

(** The messages of a trace that went out on the topic "gesture". *)
Definition gesture_sent (fx : list Effect) : list OutboundMessage :=
  filter (λ m, topic m = lit "gesture") (outbound fx).

(** Every reading of [Date.now()] a landmark callback can take lies in
    the window from [lo] to [hi]. *)
Definition readings_within (lo hi : Z) (e : Event) : Prop :=
  match e with
  | Results (Some hands) now =>
      ∀ k : nat, k < length hands → (lo ≤ now k ≤ hi)%Z
  | _ => True
  end.

(** Every hand a landmark callback delivers shows [g] or nothing the
    classifier recognises. *)
Definition shows_only (g : Gesture) (e : Event) : Prop :=
  match e with
  | Results (Some hands) _ =>
      Forall (λ h, ∀ g', detectGesture h = Some g' → g' = NONE ∨ g' = g) hands
  | _ => True
  end.

(** The transport events the two room listeners handle. *)
Definition is_inbound (e : Event) : bool :=
  match e with
  | DataReceived _ _ | ActiveSpeakersChanged _ => true
  | _ => false
  end.

(** Everything in the state that the emission gate does not own. *)
Definition sessionState (s : State)
  : option RoomId * bool * bool * jsstring * gmap nat Cont * nat * nat :=
  (room s, isConnected s, isMicOn s, chatInput_value s, pending s,
   nextTask s, nextRoom s).

(** The ways an awaited step of [connectToLiveKit] ends in its [catch]
    block, with the message of the error caught. *)
Definition connect_failure (k : Cont) (o : Outcome) : option jsstring :=
  match k, o with
  | K_fetch, Response false => Some (lit "Failed to get token")
  | (K_fetch | K_json | K_connect | K_enableMic), Rejected message =>
      Some message
  | _, _ => None
  end.

(** The calls that need a room object when they resume. *)
Definition needs_room (k : Cont) : bool :=
  match k with K_fetch | K_json => false | _ => true end.

(** What holds of every state the page can be in. *)
Definition well_formed (s : State) : Prop :=
  (isConnected s = true → is_Some (room s))
  ∧ (isMicOn s = true → is_Some (room s))
  ∧ (∀ tid k, pending s !! tid = Some k →
     tid < nextTask s ∧ (needs_room k = true → is_Some (room s)))
  ∧ (∀ r, room s = Some r → r < nextRoom s).

(** How far the gate's clock moved while [n] gesture messages went
    out, with every reading taken between [lo] and [hi]: from [T] to
    [T'], more than 2000 ms per message. *)
Definition gate_bound (lo hi T T' : Z) (n : nat) : Prop :=
  (T + 2001 * Z.of_nat n ≤ T')%Z
  ∧ (T' = T ∨ (lo ≤ T' ≤ hi)%Z)
  ∧ (1 ≤ n → (lo + 2001 * (Z.of_nat n - 1) ≤ T')%Z).

(** The effects that only write to the page. *)
Definition display_only (e : Effect) : bool :=
  match e with
  | AddLog _ _ | SetInnerText _ _ | SetStyle _ _ _ => true
  | _ => false
  end.

(* ===================================================================== *)
(** * The classifier *)
(* ===================================================================== *)

Section Classifier.

Implicit Types landmarks : list Landmark.t.

Lemma gesture_text_inj (g h : Gesture) :
  gesture_text g = gesture_text h → g = h.
Proof. destruct g, h; first [reflexivity | discriminate]. Qed.

(** Once the ten landmarks are there, the classifier is a function of
    five comparisons. *)
Lemma detectGesture_lookup landmarks l3 l4 l6 l8 l10 l12 l14 l16 l18 l20 :
  landmarks !! 3 = Some l3 → landmarks !! 4 = Some l4 →
  landmarks !! 6 = Some l6 → landmarks !! 8 = Some l8 →
  landmarks !! 10 = Some l10 → landmarks !! 12 = Some l12 →
  landmarks !! 14 = Some l14 → landmarks !! 16 = Some l16 →
  landmarks !! 18 = Some l18 → landmarks !! 20 = Some l20 →
  detectGesture landmarks =
    Some (if js_lt (Landmark.y l8) (Landmark.y l6)
             && js_lt (Landmark.y l12) (Landmark.y l10)
             && js_lt (Landmark.y l16) (Landmark.y l14)
             && js_lt (Landmark.y l20) (Landmark.y l18)
          then Open_Palm
          else if negb (js_lt (Landmark.y l8) (Landmark.y l6))
                  && negb (js_lt (Landmark.y l12) (Landmark.y l10))
                  && negb (js_lt (Landmark.y l16) (Landmark.y l14))
                  && negb (js_lt (Landmark.y l20) (Landmark.y l18))
          then if js_lt (Landmark.y l4) (Landmark.y l3)
                  && js_lt (Landmark.y l4) (Landmark.y l8)
               then Thumb_Up else Closed_Fist
          else NONE).
Proof.
  intros H3 H4 H6 H8 H10 H12 H14 H16 H18 H20.
  unfold detectGesture.
  rewrite H3, H4, H6, H8, H10, H12, H14, H16, H18, H20. simpl.
  repeat match goal with |- context [js_lt ?a ?b] =>
    destruct (js_lt a b); simpl end; reflexivity.
Qed.

Lemma frame_lookup landmarks (i : nat) :
  length landmarks = 21 → i < 21 → ∃ p, landmarks !! i = Some p.
Proof.
  intros Hlen Hi. apply lookup_lt_is_Some_2. rewrite Hlen. exact Hi.
Qed.

Lemma above_lookup landmarks tip joint p q :
  landmarks !! tip = Some p → landmarks !! joint = Some q →
  above landmarks tip joint ↔ js_lt (Landmark.y p) (Landmark.y q) = true.
Proof.
  intros Hp Hq. unfold above, y_at. rewrite Hp, Hq. simpl. split.
  - intros (a & b & Ha & Hb & Hlt). congruence.
  - intros Hlt. eauto.
Qed.

Lemma not_above_lookup landmarks tip joint p q :
  landmarks !! tip = Some p → landmarks !! joint = Some q →
  not_above landmarks tip joint ↔ js_lt (Landmark.y p) (Landmark.y q) = false.
Proof.
  intros Hp Hq. unfold not_above, y_at. rewrite Hp, Hq. simpl. split.
  - intros (a & b & Ha & Hb & Hlt). congruence.
  - intros Hlt. eauto.
Qed.

(** C5.  For every frame of 21 landmarks: when the index, middle, ring
    and pinky tips (8, 12, 16, 20) all have a strictly smaller y than
    their joints (6, 10, 14, 18) the classifier returns Open_Palm; when
    none of the four has, it returns Thumb_Up if the thumb tip (4) has a
    strictly smaller y than both the thumb joint (3) and the index tip
    (8), and Closed_Fist otherwise; in every other combination it
    returns NONE. *)
Theorem detectGesture_cases landmarks :
  length landmarks = 21 →
  (above landmarks 8 6 ∧ above landmarks 12 10
   ∧ above landmarks 16 14 ∧ above landmarks 20 18 →
   detectGesture landmarks = Some Open_Palm)
  ∧ (not_above landmarks 8 6 ∧ not_above landmarks 12 10
     ∧ not_above landmarks 16 14 ∧ not_above landmarks 20 18 →
     (above landmarks 4 3 ∧ above landmarks 4 8 →
      detectGesture landmarks = Some Thumb_Up)
     ∧ (¬ (above landmarks 4 3 ∧ above landmarks 4 8) →
        detectGesture landmarks = Some Closed_Fist))
  ∧ (¬ (above landmarks 8 6 ∧ above landmarks 12 10
        ∧ above landmarks 16 14 ∧ above landmarks 20 18) →
     ¬ (not_above landmarks 8 6 ∧ not_above landmarks 12 10
        ∧ not_above landmarks 16 14 ∧ not_above landmarks 20 18) →
     detectGesture landmarks = Some NONE).
Proof.
  intros Hlen.
  destruct (frame_lookup landmarks 3 Hlen) as [l3 H3]; [lia|].
  destruct (frame_lookup landmarks 4 Hlen) as [l4 H4]; [lia|].
  destruct (frame_lookup landmarks 6 Hlen) as [l6 H6]; [lia|].
  destruct (frame_lookup landmarks 8 Hlen) as [l8 H8]; [lia|].
  destruct (frame_lookup landmarks 10 Hlen) as [l10 H10]; [lia|].
  destruct (frame_lookup landmarks 12 Hlen) as [l12 H12]; [lia|].
  destruct (frame_lookup landmarks 14 Hlen) as [l14 H14]; [lia|].
  destruct (frame_lookup landmarks 16 Hlen) as [l16 H16]; [lia|].
  destruct (frame_lookup landmarks 18 Hlen) as [l18 H18]; [lia|].
  destruct (frame_lookup landmarks 20 Hlen) as [l20 H20]; [lia|].
  rewrite (detectGesture_lookup landmarks l3 l4 l6 l8 l10 l12 l14 l16 l18 l20)
    by assumption.
  rewrite (above_lookup landmarks 8 6 l8 l6) by assumption.
  rewrite (above_lookup landmarks 12 10 l12 l10) by assumption.
  rewrite (above_lookup landmarks 16 14 l16 l14) by assumption.
  rewrite (above_lookup landmarks 20 18 l20 l18) by assumption.
  rewrite (above_lookup landmarks 4 3 l4 l3) by assumption.
  rewrite (above_lookup landmarks 4 8 l4 l8) by assumption.
  rewrite (not_above_lookup landmarks 8 6 l8 l6) by assumption.
  rewrite (not_above_lookup landmarks 12 10 l12 l10) by assumption.
  rewrite (not_above_lookup landmarks 16 14 l16 l14) by assumption.
  rewrite (not_above_lookup landmarks 20 18 l20 l18) by assumption.
  destruct (js_lt (Landmark.y l8) (Landmark.y l6));
    destruct (js_lt (Landmark.y l12) (Landmark.y l10));
    destruct (js_lt (Landmark.y l16) (Landmark.y l14));
    destruct (js_lt (Landmark.y l20) (Landmark.y l18));
    destruct (js_lt (Landmark.y l4) (Landmark.y l3));
    destruct (js_lt (Landmark.y l4) (Landmark.y l8));
    simpl; intuition congruence.
Qed.

Lemma detectGesture_cases_witness :
  (above open_hand 8 6 ∧ above open_hand 12 10
   ∧ above open_hand 16 14 ∧ above open_hand 20 18 →
   detectGesture open_hand = Some Open_Palm)
  ∧ (not_above open_hand 8 6 ∧ not_above open_hand 12 10
     ∧ not_above open_hand 16 14 ∧ not_above open_hand 20 18 →
     (above open_hand 4 3 ∧ above open_hand 4 8 →
      detectGesture open_hand = Some Thumb_Up)
     ∧ (¬ (above open_hand 4 3 ∧ above open_hand 4 8) →
        detectGesture open_hand = Some Closed_Fist))
  ∧ (¬ (above open_hand 8 6 ∧ above open_hand 12 10
        ∧ above open_hand 16 14 ∧ above open_hand 20 18) →
     ¬ (not_above open_hand 8 6 ∧ not_above open_hand 12 10
        ∧ not_above open_hand 16 14 ∧ not_above open_hand 20 18) →
     detectGesture open_hand = Some NONE).
Proof. apply (detectGesture_cases open_hand). reflexivity. Defined.

Example detectGesture_open_hand : detectGesture open_hand = Some Open_Palm.
Proof. reflexivity. Qed.

Example detectGesture_fist_hand : detectGesture fist_hand = Some Closed_Fist.
Proof. reflexivity. Qed.

Example detectGesture_pointing_hand : detectGesture pointing_hand = Some NONE.
Proof. reflexivity. Qed.

Example detectGesture_short_frame : detectGesture (take 20 open_hand) = None.
Proof. reflexivity. Qed.

(** C10.  Two frames that agree on the y-coordinates of landmarks 3, 4,
    6, 8, 10, 12, 14, 16, 18 and 20 are classified alike, whatever their
    x-coordinates and their other landmarks are. *)
Theorem detectGesture_depends_on_ten_y (f1 f2 : list Landmark.t) :
  (∀ i, i ∈ y_indices → y_at f1 i = y_at f2 i) →
  detectGesture f1 = detectGesture f2.
Proof.
  intros Hy. unfold detectGesture.
  assert (H4 := Hy 4 ltac:(repeat constructor)).
  assert (H3 := Hy 3 ltac:(repeat constructor)).
  assert (H8 := Hy 8 ltac:(repeat constructor)).
  assert (H6 := Hy 6 ltac:(repeat constructor)).
  assert (H12 := Hy 12 ltac:(repeat constructor)).
  assert (H10 := Hy 10 ltac:(repeat constructor)).
  assert (H16 := Hy 16 ltac:(repeat constructor)).
  assert (H14 := Hy 14 ltac:(repeat constructor)).
  assert (H20 := Hy 20 ltac:(repeat constructor)).
  assert (H18 := Hy 18 ltac:(repeat constructor)).
  clear Hy. unfold y_at in *.
  destruct (f1 !! 4), (f2 !! 4); simplify_eq/=; [|reflexivity].
  destruct (f1 !! 3), (f2 !! 3); simplify_eq/=; [|reflexivity].
  destruct (f1 !! 8), (f2 !! 8); simplify_eq/=; [|reflexivity].
  destruct (f1 !! 6), (f2 !! 6); simplify_eq/=; [|reflexivity].
  destruct (f1 !! 12), (f2 !! 12); simplify_eq/=; [|reflexivity].
  destruct (f1 !! 10), (f2 !! 10); simplify_eq/=; [|reflexivity].
  destruct (f1 !! 16), (f2 !! 16); simplify_eq/=; [|reflexivity].
  destruct (f1 !! 14), (f2 !! 14); simplify_eq/=; [|reflexivity].
  destruct (f1 !! 20), (f2 !! 20); simplify_eq/=; [|reflexivity].
  destruct (f1 !! 18), (f2 !! 18); simplify_eq/=; [|reflexivity].
  repeat match goal with H : Landmark.y _ = Landmark.y _ |- _ =>
    rewrite H; clear H end.
  reflexivity.
Qed.

Lemma detectGesture_depends_on_ten_y_witness :
  detectGesture open_hand = detectGesture open_hand_moved.
Proof.
  apply (detectGesture_depends_on_ten_y open_hand open_hand_moved).
  intros i Hi. unfold y_indices in Hi.
  repeat (apply elem_of_cons in Hi as [-> | Hi]; [reflexivity|]).
  apply elem_of_nil in Hi. destruct Hi.
Defined.

End Classifier.

(* ===================================================================== *)
(** * The emission gate *)
(* ===================================================================== *)

Section EmissionGate.

Implicit Types (g : Gesture) (now : Z) (s : State).

(** The two branches of [updateGestureUI]. *)
Lemma updateGestureUI_open g now s :
  (now - lastGestureTime s > 2000)%Z → g ≠ lastGesture s →
  (updateGestureUI g now s).1 = set_lastGestureTime now (set_lastGesture g s)
  ∧ outbound (updateGestureUI g now s).2 =
      match room s with
      | Some _ => if isConnected s then [gesture_message g] else []
      | None => []
      end.
Proof.
  intros Ht Hg. unfold updateGestureUI.
  assert ((now - lastGestureTime s >? 2000)%Z = true) as -> by lia.
  rewrite bool_decide_eq_false_2 by exact Hg. simpl.
  destruct (room s), (isConnected s); split; reflexivity.
Qed.

Lemma updateGestureUI_shut g now s :
  ¬ ((now - lastGestureTime s > 2000)%Z ∧ g ≠ lastGesture s) →
  (updateGestureUI g now s).1 = s ∧ outbound (updateGestureUI g now s).2 = [].
Proof.
  intros Hno. unfold updateGestureUI.
  destruct (now - lastGestureTime s >? 2000)%Z eqn:Ht; simpl.
  - case_bool_decide as Hg; simpl; [split; reflexivity|].
    exfalso. apply Hno. split; [lia | exact Hg].
  - split; reflexivity.
Qed.

(** C3.  For every gesture symbol (in particular every one that is not
    NONE) and every timestamp, the gate lets the symbol through exactly
    when [now - lastGestureTime > 2000] and the symbol differs from
    [lastGesture].  When it does, [lastGesture] becomes the symbol and
    [lastGestureTime] becomes [now], nothing else changes, and the symbol
    is what goes to the dispatch (one gesture message when the session
    has a room and is connected).  When it does not, the state is left as
    it was and nothing is sent. *)
Theorem updateGestureUI_gate g now s :
  let s' := (updateGestureUI g now s).1 in
  let sent := outbound (updateGestureUI g now s).2 in
  ((now - lastGestureTime s > 2000)%Z ∧ g ≠ lastGesture s →
   lastGesture s' = g ∧ lastGestureTime s' = now
   ∧ s' = set_lastGestureTime now (set_lastGesture g s)
   ∧ sent = match room s with
            | Some _ => if isConnected s then [gesture_message g] else []
            | None => []
            end)
  ∧ (¬ ((now - lastGestureTime s > 2000)%Z ∧ g ≠ lastGesture s) →
     s' = s ∧ sent = [])
  ∧ (is_Some (room s) → isConnected s = true →
     (sent = [gesture_message g]
      ↔ (now - lastGestureTime s > 2000)%Z ∧ g ≠ lastGesture s)).
Proof.
  cbv zeta. split; [|split].
  - intros [Ht Hg].
    destruct (updateGestureUI_open g now s Ht Hg) as [Hs Hfx].
    rewrite Hs, Hfx. repeat split; reflexivity.
  - apply updateGestureUI_shut.
  - intros [r Hr] Hc. split.
    + intros Hsent.
      destruct (decide ((now - lastGestureTime s > 2000)%Z
                        ∧ g ≠ lastGesture s)) as [Hyes | Hno];
        [exact Hyes|].
      destruct (updateGestureUI_shut g now s Hno) as [_ Hnil].
      rewrite Hnil in Hsent. discriminate.
    + intros [Ht Hg].
      destruct (updateGestureUI_open g now s Ht Hg) as [_ Hfx].
      rewrite Hfx, Hr, Hc. reflexivity.
Qed.

Lemma updateGestureUI_gate_witness :
  (updateGestureUI Open_Palm 5000 online).1
    = set_lastGestureTime 5000 (set_lastGesture Open_Palm online)
  ∧ outbound (updateGestureUI Open_Palm 5000 online).2
    = [gesture_message Open_Palm]
  ∧ (updateGestureUI Open_Palm 1500 online).1 = online
  ∧ outbound (updateGestureUI Open_Palm 1500 online).2 = [].
Proof.
  destruct (updateGestureUI_gate Open_Palm 5000 online) as (Hopen & _ & _).
  destruct (updateGestureUI_gate Open_Palm 1500 online) as (_ & Hshut & _).
  destruct Hopen as (_ & _ & Hs & Hfx); [split; [reflexivity | discriminate]|].
  destruct Hshut as (Hs' & Hfx'); [intros [Ht _]; discriminate Ht|].
  repeat split; assumption.
Defined.

(** C4, as the code has it.  After a symbol [g1] was let through at
    [now], a different symbol [g2] presented [delay] milliseconds later
    is dropped whenever [delay <= 2000] (so also 10 ms later): the state
    stays as the first emission left it and nothing is sent.  It is let
    through once more than 2000 ms have passed. *)
Theorem updateGestureUI_distinct_symbol g1 g2 now delay s :
  (now - lastGestureTime s > 2000)%Z → g1 ≠ lastGesture s → g2 ≠ g1 →
  let s1 := (updateGestureUI g1 now s).1 in
  ((delay ≤ 2000)%Z →
   (updateGestureUI g2 (now + delay) s1).1 = s1
   ∧ outbound (updateGestureUI g2 (now + delay) s1).2 = [])
  ∧ ((delay > 2000)%Z →
     gestureState (updateGestureUI g2 (now + delay) s1).1 = (g2, (now + delay)%Z)).
Proof.
  intros Ht Hg Hne. cbv zeta.
  destruct (updateGestureUI_open g1 now s Ht Hg) as [Hs1 _].
  rewrite Hs1. split.
  - intros Hd. apply updateGestureUI_shut. simpl. lia.
  - intros Hd.
    destruct (updateGestureUI_open g2 (now + delay)
                (set_lastGestureTime now (set_lastGesture g1 s)))
      as [Hs2 _]; [simpl; lia | simpl; exact Hne |].
    rewrite Hs2. reflexivity.
Qed.

Lemma updateGestureUI_distinct_symbol_witness :
  (updateGestureUI Closed_Fist (5000 + 10)
     (updateGestureUI Open_Palm 5000 online).1).1
  = (updateGestureUI Open_Palm 5000 online).1
  ∧ outbound (updateGestureUI Closed_Fist (5000 + 10)
                (updateGestureUI Open_Palm 5000 online).1).2 = [].
Proof.
  destruct (updateGestureUI_distinct_symbol Open_Palm Closed_Fist 5000 10 online)
    as [Hdrop _]; [reflexivity | discriminate | discriminate |].
  apply Hdrop. discriminate.
Defined.

(** C4, as stated, fails: in a connected session Open_Palm at t = 5000
    is sent, and Closed_Fist at t = 5010, a different symbol 10 ms
    later, is not: nothing is sent and the gate state still holds
    Open_Palm at 5000. *)
Lemma distinct_symbols_10ms_apart_counterexample :
  room online = Some 0 ∧ isConnected online = true
  ∧ Open_Palm ≠ NONE ∧ Closed_Fist ≠ NONE ∧ Open_Palm ≠ Closed_Fist
  ∧ outbound (updateGestureUI Open_Palm 5000 online).2
    = [gesture_message Open_Palm]
  ∧ outbound (updateGestureUI Closed_Fist 5010
                (updateGestureUI Open_Palm 5000 online).1).2 = []
  ∧ gestureState (updateGestureUI Closed_Fist 5010
                    (updateGestureUI Open_Palm 5000 online).1).1
    = (Open_Palm, 5000%Z).
Proof. repeat split; first [discriminate | reflexivity]. Qed.

(** No handler other than [onResults] touches the gate's state. *)
Lemma step_gestureState (e : Event) s :
  is_results e = false → gestureState (step e s).1 = gestureState s.
Proof.
  intros He. destruct e; try discriminate He; clear He;
    unfold step, connectBtn_click, launch, connectToLiveKit, micBtn_click,
      sendChatMessage, settle, resume;
    repeat case_match; simplify_eq; reflexivity.
Qed.

Lemma run_gestureState (events : list Event) s :
  Forall (λ e, is_results e = false) events →
  gestureState (run events s).1 = gestureState s.
Proof.
  intros Hall. revert s.
  induction Hall as [|e events He _ IH]; intros s; [reflexivity|].
  simpl. pose proof (step_gestureState e s He) as Hstep.
  destruct (step e s) as [s1 fx1]. specialize (IH s1).
  destruct (run events s1) as [s2 fx2]. simpl in *. congruence.
Qed.

(** C9.  The gate updates its state whether or not the session is
    connected: a gesture that passes the test while [isConnected] is
    false is recorded in [lastGesture] and [lastGestureTime] although no
    message is sent; and after any later history without landmark
    callbacks (a connect, for one) the same gesture is dropped at every
    later time, with nothing sent. *)
Theorem gesture_while_disconnected g now s :
  isConnected s = false →
  (now - lastGestureTime s > 2000)%Z → g ≠ lastGesture s →
  let s1 := (updateGestureUI g now s).1 in
  lastGesture s1 = g ∧ lastGestureTime s1 = now
  ∧ outbound (updateGestureUI g now s).2 = []
  ∧ ∀ (events : list Event) (now' : Z),
      Forall (λ e, is_results e = false) events →
      let s2 := (run events s1).1 in
      (updateGestureUI g now' s2).1 = s2
      ∧ outbound (updateGestureUI g now' s2).2 = [].
Proof.
  intros Hc Ht Hg. cbv zeta.
  destruct (updateGestureUI_open g now s Ht Hg) as [Hs1 Hfx].
  rewrite Hs1, Hfx, Hc.
  split; [reflexivity|]. split; [reflexivity|].
  split; [destruct (room s); reflexivity|].
  intros events now' Hevents.
  pose proof (run_gestureState events
                (set_lastGestureTime now (set_lastGesture g s)) Hevents)
    as Hkeep.
  apply updateGestureUI_shut. intros [_ Hne]. apply Hne.
  unfold gestureState in Hkeep. simpl in Hkeep. congruence.
Qed.

Lemma gesture_while_disconnected_witness :
  let s1 := (updateGestureUI Open_Palm 5000 init).1 in
  let s2 := (run connect_ok s1).1 in
  isConnected init = false
  ∧ gestureState s1 = (Open_Palm, 5000%Z)
  ∧ outbound (updateGestureUI Open_Palm 5000 init).2 = []
  ∧ isConnected s2 = true
  ∧ outbound (updateGestureUI Open_Palm 65000 s2).2 = [].
Proof.
  cbv zeta.
  destruct (gesture_while_disconnected Open_Palm 5000 init)
    as (Hg & Ht & Hfx & Hlater);
    [reflexivity | reflexivity | discriminate |].
  destruct (Hlater connect_ok 65000%Z) as [_ Hnil];
    [repeat constructor|].
  repeat split; try assumption; reflexivity.
Defined.

End EmissionGate.

(* ===================================================================== *)
(** * The chat dispatcher *)
(* ===================================================================== *)

Section Dispatcher.

Implicit Types (s : State) (text : jsstring).

Lemma trimStart_split text :
  ∃ l, text = l ++ trimStart text ∧ blank l.
Proof.
  unfold blank. induction text as [|c rest IH]; simpl.
  - exists []. split; [reflexivity | constructor].
  - destruct (isWhiteSpace c) eqn:Hc.
    + destruct IH as (l & Heq & Hl). exists (c :: l). split.
      * simpl. congruence.
      * constructor; assumption.
    + exists []. split; [reflexivity | constructor].
Qed.

Lemma trimStart_head text c :
  head (trimStart text) = Some c → isWhiteSpace c = false.
Proof.
  induction text as [|d rest IH]; simpl; [discriminate|].
  destruct (isWhiteSpace d) eqn:Hd; [exact IH|].
  simpl. congruence.
Qed.

Lemma trimEnd_split text :
  ∃ r, text = trimEnd text ++ r ∧ blank r.
Proof.
  unfold trimEnd, blank.
  destruct (trimStart_split (reverse text)) as (l & Heq & Hl).
  exists (reverse l). split.
  - rewrite <- reverse_app, <- Heq, reverse_involutive. reflexivity.
  - apply Forall_reverse. exact Hl.
Qed.

Lemma trimEnd_last text c :
  last (trimEnd text) = Some c → isWhiteSpace c = false.
Proof.
  unfold trimEnd. rewrite last_reverse. apply trimStart_head.
Qed.

(** [trim] removes a blank prefix and a blank suffix, and what is left
    neither starts nor ends with a blank. *)
Lemma trim_split text :
  ∃ l r, text = l ++ trim text ++ r ∧ blank l ∧ blank r.
Proof.
  unfold trim.
  destruct (trimStart_split text) as (l & Heq & Hl).
  destruct (trimEnd_split (trimStart text)) as (r & Heq' & Hr).
  exists l, r. split; [|split; assumption].
  rewrite <- Heq'. exact Heq.
Qed.

Lemma trim_ends text c :
  head (trim text) = Some c ∨ last (trim text) = Some c →
  isWhiteSpace c = false.
Proof.
  unfold trim. intros [Hhead | Hlast].
  - destruct (trimEnd_split (trimStart text)) as (r & Heq & _).
    apply (trimStart_head text).
    rewrite Heq. rewrite head_app. rewrite Hhead. reflexivity.
  - apply (trimEnd_last (trimStart text)). exact Hlast.
Qed.

Lemma trim_blank text : blank text → trim text = [].
Proof.
  unfold blank. intros Hblank.
  destruct (trim text) as [|c rest] eqn:Htrim; [reflexivity|].
  assert (isWhiteSpace c = false) as Hc.
  { apply (trim_ends text). left. rewrite Htrim. reflexivity. }
  destruct (trim_split text) as (l & r & Heq & _).
  rewrite Htrim in Heq. rewrite Heq in Hblank.
  apply Forall_app in Hblank as [_ Hblank].
  apply Forall_app in Hblank as [Hblank _].
  apply Forall_cons in Hblank as [Hc' _]. congruence.
Qed.

(** C6.  [sendChatMessage] works on the trimmed value of the text box:
    the value is a blank prefix, the trimmed text and a blank suffix, and
    the trimmed text has no blank at either end; every message it builds
    carries exactly the trimmed text.  When the trimmed text is empty
    (so for every all-blank value) the call returns at once: no message,
    no log line, no error, the state as it was. *)
Theorem sendChatMessage_trims s :
  let text := trim (chatInput_value s) in
  (∃ l r, chatInput_value s = l ++ text ++ r ∧ blank l ∧ blank r)
  ∧ (∀ c, head text = Some c ∨ last text = Some c → isWhiteSpace c = false)
  ∧ (blank (chatInput_value s) → text = [])
  ∧ (∀ m, m ∈ outbound (sendChatMessage s).1.2 → m = chat_message text)
  ∧ (∀ r, room s = Some r → text ≠ [] →
     outbound (sendChatMessage s).1.2 = [chat_message text])
  ∧ (text = [] →
     sendChatMessage s = (s, [], None) ∧ step Click_sendBtn s = (s, [])).
Proof.
  cbv zeta. split; [apply trim_split|].
  split; [apply trim_ends|].
  split; [apply trim_blank|].
  unfold step, sendChatMessage.
  destruct (trim (chatInput_value s)) as [|c rest] eqn:Htrim.
  - repeat split; try reflexivity.
    + intros m Hm. simpl in Hm. apply elem_of_nil in Hm. destruct Hm.
    + intros r _ Hne. congruence.
  - repeat split; try discriminate.
    + intros m Hm. destruct (room s); simpl in Hm.
      * apply list_elem_of_singleton in Hm. exact Hm.
      * apply elem_of_nil in Hm. destruct Hm.
    + intros r Hr _. rewrite Hr. reflexivity.
Qed.

Lemma sendChatMessage_trims_witness :
  trim (lit "") = [] ∧ trim (lit "   ") = []
  ∧ step Click_sendBtn (set_chatInput_value (lit "   ") online)
    = (set_chatInput_value (lit "   ") online, [])
  ∧ outbound (sendChatMessage (set_chatInput_value (lit "  hi ") online)).1.2
    = [chat_message (lit "hi")].
Proof.
  pose proof (sendChatMessage_trims (set_chatInput_value (lit "   ") online))
    as (_ & _ & Hblank & _ & _ & Hempty).
  pose proof (sendChatMessage_trims (set_chatInput_value (lit "  hi ") online))
    as (_ & _ & _ & _ & Hsend & _).
  split; [reflexivity|].
  split; [apply Hblank; repeat constructor|].
  split; [apply Hempty; reflexivity|].
  apply (Hsend 0); [reflexivity | discriminate].
Defined.

(** The chat path never reads [isConnected]. *)
Lemma sendChatMessage_ignores_isConnected s (b : bool) :
  (sendChatMessage (set_isConnected b s)).1.2 = (sendChatMessage s).1.2.
Proof.
  unfold sendChatMessage. simpl.
  destruct (trim (chatInput_value s)), (room s); reflexivity.
Qed.

(** The gesture path does: it sends nothing while [isConnected] is
    false. *)
Lemma updateGestureUI_disconnected_silent (g : Gesture) (now : Z) s :
  isConnected s = false → outbound (updateGestureUI g now s).2 = [].
Proof.
  intros Hc. unfold updateGestureUI.
  destruct (_ && _); [|reflexivity]. simpl. rewrite Hc.
  destruct (room s); reflexivity.
Qed.

(** C1 fails on the code.  After a connect and an explicit disconnect
    [isConnected] is false and [room] still holds the room object; with
    the text box holding [hi], a click on [sendBtn] builds the chat
    message and hands it to [publishData]. *)
Lemma sendChat_after_disconnect :
  let s := (run (connect_ok ++ [Click_connectBtn; Input_chatInput (lit "hi")])
                init).1 in
  isConnected s = false ∧ room s = Some 0
  ∧ (step Click_sendBtn s).2
    = [AddLog (lit "You: hi") LogUser;
       PublishData 0 (lit "hi") (lit "chat_message")]
  ∧ outbound (step Click_sendBtn s).2 = [chat_message (lit "hi")].
Proof. repeat split; reflexivity. Qed.

(** The same while the first connect is still in flight: once the room
    object exists, the message goes out before [isConnected] is set. *)
Lemma sendChat_while_connecting :
  let s := (run [Click_connectBtn; Settled 0 (Response true);
                 Settled 0 (Json (lit "jwt")); Input_chatInput (lit "hi")]
                init).1 in
  isConnected s = false ∧ lifecycle s = CONNECTING
  ∧ outbound (step Click_sendBtn s).2 = [chat_message (lit "hi")].
Proof. repeat split; reflexivity. Qed.

End Dispatcher.

(* ===================================================================== *)
(** * The session lifecycle *)
(* ===================================================================== *)

Section SessionLifecycle.

Implicit Types s : State.

Lemma lifecycle_spawn_fetch s :
  isConnected s = false → lifecycle (spawn K_fetch s) = CONNECTING.
Proof.
  intros Hc. unfold lifecycle. simpl. rewrite Hc.
  assert (existsb (λ p : nat * Cont, in_flight p.2)
            (map_to_list (<[nextTask s := K_fetch]> (pending s))) = true)
    as -> ; [|reflexivity].
  apply existsb_exists. exists (nextTask s, K_fetch). split; [|reflexivity].
  apply list_elem_of_In, elem_of_map_to_list, lookup_insert_eq.
Qed.

(** C2, as the code has it.  The only guard on a connect request is
    [isConnected].  While it is false, also when an earlier attempt is
    still in flight, a click on [connectBtn] starts a token fetch and
    parks one more call of [connectToLiveKit] beside the ones already
    pending; every parked call whose token arrives opens a transport
    connection of its own.  A call of [connectToLiveKit] is ignored (no
    fetch, no state change) only when [isConnected] is true. *)
Theorem connect_request_guard s :
  (isConnected s = false →
   step Click_connectBtn s
   = (spawn K_fetch s,
      [AddLog (lit "Requesting access token...") LogSystem;
       Fetch (API_URL ++ lit "/token")])
   ∧ pending (spawn K_fetch s) !! nextTask s = Some K_fetch
   ∧ (∀ tid, tid ≠ nextTask s →
      pending (spawn K_fetch s) !! tid = pending s !! tid)
   ∧ lifecycle (spawn K_fetch s) = CONNECTING)
  ∧ (∀ tid token, pending s !! tid = Some K_json →
     connect_attempts (step (Settled tid (Json token)) s).2
     = [RoomConnect (nextRoom s) LIVEKIT_URL token])
  ∧ (isConnected s = true → connectToLiveKit s = (s, [], None)).
Proof.
  split; [|split].
  - intros Hc. split; [|split; [|split]].
    + unfold step, connectBtn_click, connectToLiveKit. rewrite Hc. reflexivity.
    + simpl. apply lookup_insert_eq.
    + intros tid Hne. simpl. apply lookup_insert_ne. congruence.
    + apply lifecycle_spawn_fetch. exact Hc.
  - intros tid token Hk. unfold step, settle. rewrite Hk. reflexivity.
  - intros Hc. unfold connectToLiveKit. rewrite Hc. reflexivity.
Qed.

Lemma connect_request_guard_witness :
  let s := (step Click_connectBtn init).1 in
  isConnected s = false ∧ lifecycle s = CONNECTING
  ∧ connect_attempts (step Click_connectBtn s).2
    = [Fetch (API_URL ++ lit "/token")]
  ∧ lifecycle (step Click_connectBtn s).1 = CONNECTING
  ∧ connectToLiveKit online = (online, [], None).
Proof.
  cbv zeta.
  destruct (connect_request_guard (step Click_connectBtn init).1)
    as (Hoff & _ & _).
  destruct (connect_request_guard online) as (_ & _ & Hon).
  destruct Hoff as (Hstep & _ & _ & Hlife); [reflexivity|].
  split; [reflexivity|]. split; [reflexivity|].
  rewrite Hstep. split; [reflexivity|]. split; [exact Hlife|].
  apply Hon. reflexivity.
Defined.

(** C2, as stated, fails: after one click the session is connecting;
    the second click is not ignored, it starts a second token fetch and
    parks a second call, and when both tokens arrive two rooms are
    created and two transport connects are started. *)
Lemma second_connect_counterexample :
  let s := (step Click_connectBtn init).1 in
  lifecycle s = CONNECTING
  ∧ size (pending s) = 1
  ∧ connect_attempts (step Click_connectBtn s).2
    = [Fetch (API_URL ++ lit "/token")]
  ∧ size (pending (step Click_connectBtn s).1) = 2
  ∧ connect_attempts
      (run [Click_connectBtn; Click_connectBtn;
            Settled 0 (Response true); Settled 1 (Response true);
            Settled 0 (Json (lit "jwt")); Settled 1 (Json (lit "jwt"))]
           init).2
    = [Fetch (API_URL ++ lit "/token"); Fetch (API_URL ++ lit "/token");
       RoomConnect 0 LIVEKIT_URL (lit "jwt");
       RoomConnect 1 LIVEKIT_URL (lit "jwt")].
Proof. repeat split; vm_compute; reflexivity. Qed.

(** The microphone handler is guarded by [room] alone. *)
Lemma micBtn_click_no_room s :
  room s = None → step Click_micBtn s = (s, []).
Proof.
  intros Hr. unfold step, micBtn_click. rewrite Hr. reflexivity.
Qed.

Lemma micBtn_click_room s (r : RoomId) :
  room s = Some r →
  isMicOn (step Click_micBtn s).1 = negb (isMicOn s)
  ∧ mic_ops (step Click_micBtn s).2 = [negb (isMicOn s)].
Proof.
  intros Hr. unfold step, micBtn_click. rewrite Hr. split; reflexivity.
Qed.

(** C7 fails on the code.  After a connect and an explicit disconnect
    [isConnected] is false, yet a click on [micBtn] flips [isMicOn] from
    true to false and calls [setMicrophoneEnabled(false)] on the room
    that was left in [room]. *)
Lemma mic_toggle_after_disconnect :
  isConnected disconnected_again = false
  ∧ lifecycle disconnected_again = DISCONNECTED
  ∧ isMicOn disconnected_again = true
  ∧ isMicOn (step Click_micBtn disconnected_again).1 = false
  ∧ (step Click_micBtn disconnected_again).2 = [SetMicrophoneEnabled 0 false]
  ∧ mic_ops (step Click_micBtn disconnected_again).2 = [false].
Proof. repeat split; vm_compute; reflexivity. Qed.

(** The same while the connect is in flight, once the room object
    exists. *)
Lemma mic_toggle_while_connecting :
  let s := (run [Click_connectBtn; Settled 0 (Response true);
                 Settled 0 (Json (lit "jwt"))] init).1 in
  lifecycle s = CONNECTING ∧ isMicOn s = false
  ∧ isMicOn (step Click_micBtn s).1 = true
  ∧ mic_ops (step Click_micBtn s).2 = [true].
Proof. repeat split; vm_compute; reflexivity. Qed.

End SessionLifecycle.

(* ===================================================================== *)
(** * The landmark callback *)
(* ===================================================================== *)

Section LandmarkCallback.

Implicit Types (s : State) (hands : list (list Landmark.t)) (now : nat → Z).

(** The loop runs over the whole list: the hands after a prefix that
    classifies are processed from the state the prefix left. *)
Lemma forHands_app hs1 hs2 now (k : nat) s :
  Forall (λ h, is_Some (detectGesture h)) hs1 →
  forHands (hs1 ++ hs2) now k s
  = let '(s1, fx1, _) := forHands hs1 now k s in
    let '(s2, fx2, ok) := forHands hs2 now (k + length hs1) s1 in
    (s2, fx1 ++ fx2, ok).
Proof.
  intros Hall. revert k s.
  induction Hall as [|h hs1 [g Hg] _ IH]; intros k s; simpl.
  - rewrite Nat.add_0_r. destruct (forHands hs2 now k s) as [[s2 fx2] ok].
    reflexivity.
  - rewrite Hg.
    destruct (if bool_decide (g ≠ NONE) then updateGestureUI g (now k) s
              else (s, [])) as [s1 fx1].
    rewrite IH.
    destruct (forHands hs1 now (S k) s1) as [[s1' fx1'] ok1].
    replace (k + S (length hs1)) with (S k + length hs1) by lia.
    destruct (forHands hs2 now (S k + length hs1) s1') as [[s2 fx2] ok].
    simpl. rewrite (app_assoc fx1 fx1' fx2). reflexivity.
Qed.




(** The limit is what keeps later hands out: the loop itself runs over
    whatever list it is given.  Had the source been configured for two
    hands, a second hand showing an open palm after a first one that
    classifies as NONE would be classified, pass the gate and be sent. *)
Example onResults_two_hands :
  length [pointing_hand; open_hand] = 2
  ∧ maxNumHands hands_options = 1
  ∧ detectGesture pointing_hand = Some NONE
  ∧ detectGesture open_hand = Some Open_Palm
  ∧ outbound (onResults (Some [pointing_hand; open_hand])
                        (λ _, 5000%Z) online).2
    = [gesture_message Open_Palm]
  ∧ gestureState (onResults (Some [pointing_hand; open_hand])
                            (λ _, 5000%Z) online).1
    = (Open_Palm, 5000%Z).
Proof. repeat split; vm_compute; reflexivity. Qed.

End LandmarkCallback.

(* ===================================================================== *)
(** * More on the classifier *)
(* ===================================================================== *)

Section ClassifierEdges.

Implicit Types landmarks : list Landmark.t.

(** The JavaScript [<] is irreflexive, NaN included. *)
Lemma js_lt_irrefl (c : float) : js_lt c c = false.
Proof.
  unfold js_lt. rewrite ltb_spec. unfold SpecFloat.SFltb.
  destruct (Prim2SF c) as [sg | sg | | sg m e]; simpl;
    try (destruct sg; reflexivity); try reflexivity.
  destruct sg; rewrite Z.compare_refl;
    change (Pos.compare_cont Eq m m) with (Pos.compare m m);
    rewrite Pos.compare_refl; reflexivity.
Qed.

(** [detectGesture] throws exactly on the frames that have fewer than 21
    landmarks; on every other frame it returns a symbol. *)
Theorem detectGesture_throws_iff_short landmarks :
  detectGesture landmarks = None ↔ length landmarks < 21.
Proof.
  split.
  - intros Hnone. destruct (decide (length landmarks < 21)) as [|Hlong];
      [assumption|]. exfalso.
    assert (∀ i, i < 21 → is_Some (landmarks !! i)) as Hget.
    { intros i Hi. apply lookup_lt_is_Some_2. lia. }
    destruct (Hget 3) as [l3 H3]; [lia|].
    destruct (Hget 4) as [l4 H4]; [lia|].
    destruct (Hget 6) as [l6 H6]; [lia|].
    destruct (Hget 8) as [l8 H8]; [lia|].
    destruct (Hget 10) as [l10 H10]; [lia|].
    destruct (Hget 12) as [l12 H12]; [lia|].
    destruct (Hget 14) as [l14 H14]; [lia|].
    destruct (Hget 16) as [l16 H16]; [lia|].
    destruct (Hget 18) as [l18 H18]; [lia|].
    destruct (Hget 20) as [l20 H20]; [lia|].
    rewrite (detectGesture_lookup landmarks l3 l4 l6 l8 l10 l12 l14 l16 l18 l20)
      in Hnone by assumption.
    discriminate Hnone.
  - intros Hshort.
    assert (landmarks !! 20 = None) as H20 by (apply lookup_ge_None; lia).
    unfold detectGesture. rewrite H20.
    repeat (match goal with |- context [landmarks !! ?i] =>
              destruct (landmarks !! i) end; simpl; try reflexivity).
Qed.

Lemma detectGesture_throws_iff_short_witness :
  (detectGesture (take 20 open_hand) = None ↔ length (take 20 open_hand) < 21)
  ∧ (detectGesture open_hand = None ↔ length open_hand < 21).
Proof.
  split.
  - apply (detectGesture_throws_iff_short (take 20 open_hand)).
  - apply (detectGesture_throws_iff_short open_hand).
Defined.

(** A frame whose ten compared y-coordinates are all the same value, be
    it a number or NaN, is a Closed_Fist: no strict comparison holds, so
    no finger counts as open and the thumb does not count as up. *)
Theorem detectGesture_level_frame landmarks (c : float) :
  (∀ i, i ∈ y_indices → y_at landmarks i = Some c) →
  detectGesture landmarks = Some Closed_Fist.
Proof.
  intros Hy.
  assert (∀ i, i ∈ y_indices →
          ∃ p, landmarks !! i = Some p ∧ Landmark.y p = c) as Hget.
  { intros i Hi. specialize (Hy i Hi). unfold y_at in Hy.
    destruct (landmarks !! i) as [p|]; [|discriminate].
    exists p. split; [reflexivity|]. simpl in Hy. congruence. }
  destruct (Hget 3) as (l3 & H3 & E3); [repeat constructor|].
  destruct (Hget 4) as (l4 & H4 & E4); [repeat constructor|].
  destruct (Hget 6) as (l6 & H6 & E6); [repeat constructor|].
  destruct (Hget 8) as (l8 & H8 & E8); [repeat constructor|].
  destruct (Hget 10) as (l10 & H10 & E10); [repeat constructor|].
  destruct (Hget 12) as (l12 & H12 & E12); [repeat constructor|].
  destruct (Hget 14) as (l14 & H14 & E14); [repeat constructor|].
  destruct (Hget 16) as (l16 & H16 & E16); [repeat constructor|].
  destruct (Hget 18) as (l18 & H18 & E18); [repeat constructor|].
  destruct (Hget 20) as (l20 & H20 & E20); [repeat constructor|].
  rewrite (detectGesture_lookup landmarks l3 l4 l6 l8 l10 l12 l14 l16 l18 l20)
    by assumption.
  rewrite E3, E4, E6, E8, E10, E12, E14, E16, E18, E20.
  rewrite js_lt_irrefl. reflexivity.
Qed.

Lemma detectGesture_level_frame_witness :
  detectGesture (replicate 21 (pt 0.5 nan)) = Some Closed_Fist.
Proof.
  apply (detectGesture_level_frame (replicate 21 (pt 0.5 nan)) nan).
  intros i Hi. unfold y_indices in Hi.
  repeat (apply elem_of_cons in Hi as [-> | Hi]; [reflexivity|]).
  apply elem_of_nil in Hi. destruct Hi.
Defined.

End ClassifierEdges.

(* ===================================================================== *)
(** * The emission gate over whole histories *)
(* ===================================================================== *)

Section GateHistories.

Implicit Types (g : Gesture) (s : State) (fx : list Effect)
  (hands : list (list Landmark.t)) (now : nat → Z) (events : list Event).

Lemma outbound_app fx1 fx2 :
  outbound (fx1 ++ fx2) = outbound fx1 ++ outbound fx2.
Proof. apply omap_app. Qed.

Lemma gesture_sent_app fx1 fx2 :
  gesture_sent (fx1 ++ fx2) = gesture_sent fx1 ++ gesture_sent fx2.
Proof. unfold gesture_sent. rewrite outbound_app. apply filter_app. Qed.

Lemma gesture_sent_outbound_nil fx : outbound fx = [] → gesture_sent fx = [].
Proof. unfold gesture_sent. intros ->. reflexivity. Qed.

(** The gate either leaves everything as it was, or records the symbol
    and the time and hands at most that one symbol to the transport. *)
Lemma updateGestureUI_cases g (t : Z) s :
  ((updateGestureUI g t s).1 = s ∧ outbound (updateGestureUI g t s).2 = [])
  ∨ ((t - lastGestureTime s > 2000)%Z ∧ g ≠ lastGesture s
     ∧ (updateGestureUI g t s).1
       = set_lastGestureTime t (set_lastGesture g s)
     ∧ (outbound (updateGestureUI g t s).2 = []
        ∨ (isConnected s = true ∧ is_Some (room s)
           ∧ outbound (updateGestureUI g t s).2 = [gesture_message g]))).
Proof.
  destruct (decide ((t - lastGestureTime s > 2000)%Z ∧ g ≠ lastGesture s))
    as [[Ht Hg] | Hno].
  - right. destruct (updateGestureUI_open g t s Ht Hg) as [Hs Hfx].
    split; [exact Ht|]. split; [exact Hg|]. split; [exact Hs|].
    rewrite Hfx. destruct (room s) as [r|]; [|left; reflexivity].
    destruct (isConnected s); [|left; reflexivity].
    right. split; [reflexivity|]. split; [eexists; reflexivity | reflexivity].
  - left. apply updateGestureUI_shut. exact Hno.
Qed.

Lemma updateGestureUI_sessionState g (t : Z) s :
  sessionState (updateGestureUI g t s).1 = sessionState s.
Proof.
  destruct (updateGestureUI_cases g t s) as [[-> _] | (_ & _ & -> & _)];
    reflexivity.
Qed.

(** One iteration of the loop of [onResults], for a hand that
    classifies. *)
Lemma forHands_cons h hands now (k : nat) s g :
  detectGesture h = Some g →
  forHands (h :: hands) now k s
  = let '(s1, fx1) := if bool_decide (g ≠ NONE)
                      then updateGestureUI g (now k) s else (s, []) in
    let '(s2, fx2, ok) := forHands hands now (S k) s1 in
    (s2, CanvasDrawHand h :: fx1 ++ fx2, ok).
Proof. intros Hg. simpl. rewrite Hg. reflexivity. Qed.

Lemma forHands_throw h hands now (k : nat) s :
  detectGesture h = None →
  forHands (h :: hands) now k s
  = (s, [CanvasDrawHand h; Uncaught (lit "TypeError")], false).
Proof. intros Hg. simpl. rewrite Hg. reflexivity. Qed.

(** A property of states and message lists that every pass through the
    gate keeps is kept by the whole loop. *)
Lemma forHands_invariant (P : nat → State → State → list OutboundMessage → Prop)
    hands now :
  (∀ k s, P k s s []) →
  (∀ k s g s2 out2,
     let r := if bool_decide (g ≠ NONE)
              then updateGestureUI g (now k) s else (s, []) in
     P (S k) r.1 s2 out2 → P k s s2 (outbound r.2 ++ out2)) →
  ∀ k s, P k s (forHands hands now k s).1.1
           (outbound (forHands hands now k s).1.2).
Proof.
  intros Hbase Hstep. induction hands as [|h hands IH]; intros k s.
  - simpl. apply Hbase.
  - destruct (detectGesture h) as [g|] eqn:Hg.
    + rewrite (forHands_cons h hands now k s g Hg).
      specialize (Hstep k s g). cbv zeta in Hstep.
      destruct (if bool_decide (g ≠ NONE)
                then updateGestureUI g (now k) s else (s, [])) as [s1 fx1].
      specialize (IH (S k) s1).
      destruct (forHands hands now (S k) s1) as [[s2 fx2] ok].
      simpl in *. change (omap outbound_of (fx1 ++ fx2))
        with (outbound (fx1 ++ fx2)).
      rewrite outbound_app. apply Hstep. exact IH.
    + rewrite (forHands_throw h hands now k s Hg). simpl. apply Hbase.
Qed.

Lemma onResults_forHands hands now s :
  (onResults (Some hands) now s).1 = (forHands hands now 0 s).1.1
  ∧ outbound (onResults (Some hands) now s).2
    = outbound (forHands hands now 0 s).1.2.
Proof.
  unfold onResults. destruct (forHands hands now 0 s) as [[s1 fx] ok].
  simpl. split; [reflexivity|].
  change (omap outbound_of (fx ++ (if ok then [CanvasRestore] else [])))
    with (outbound (fx ++ (if ok then [CanvasRestore] else []))).
  rewrite outbound_app. destruct ok; simpl; apply app_nil_r.
Qed.

(** Handlers other than [onResults] publish on "chat_message" only. *)
Lemma step_no_gesture (e : Event) s :
  is_results e = false → gesture_sent (step e s).2 = [].
Proof.
  intros He. destruct e; try discriminate He; clear He;
    unfold step, connectBtn_click, launch, connectToLiveKit, micBtn_click,
      sendChatMessage, settle, resume, onDataReceived,
      onActiveSpeakersChanged, catch_connect, tail_of, click_tail;
    repeat case_match; simplify_eq; reflexivity.
Qed.

Lemma run_step (e : Event) events s s' fx :
  step e s = (s', fx) →
  run (e :: events) s = ((run events s').1, fx ++ (run events s').2).
Proof.
  intros Hstep. simpl. rewrite Hstep. destruct (run events s'). reflexivity.
Qed.

Lemma run_cons (e : Event) events s :
  (run (e :: events) s).1 = (run events (step e s).1).1
  ∧ (run (e :: events) s).2 = (step e s).2 ++ (run events (step e s).1).2.
Proof.
  simpl. destruct (step e s) as [s1 fx1]. simpl.
  destruct (run events s1) as [s2 fx2]. split; reflexivity.
Qed.

(** The loop of [onResults] either leaves [lastGestureTime] alone or
    moves it, by more than 2000 ms, to a reading of the clock taken for
    one of its hands. *)
Lemma forHands_time hands now :
  ∀ (k : nat) s,
    let T := lastGestureTime s in
    let T' := lastGestureTime (forHands hands now k s).1.1 in
    T' = T
    ∨ ((T + 2000 < T')%Z
       ∧ ∃ j : nat, j < length hands ∧ T' = now (k + j)%nat).
Proof.
  induction hands as [|h hands IH]; intros k s; cbv zeta.
  - left. reflexivity.
  - destruct (detectGesture h) as [g|] eqn:Hg.
    + rewrite (forHands_cons h hands now k s g Hg).
      assert (let s1 := (if bool_decide (g ≠ NONE)
                         then updateGestureUI g (now k) s else (s, [])).1 in
              lastGestureTime s1 = lastGestureTime s
              ∨ ((lastGestureTime s + 2000 < lastGestureTime s1)%Z
                 ∧ lastGestureTime s1 = now k)) as Hone.
      { cbv zeta. destruct (bool_decide (g ≠ NONE)); [|left; reflexivity].
        destruct (updateGestureUI_cases g (now k) s)
          as [[-> _] | (Ht & _ & -> & _)]; [left; reflexivity|].
        right. simpl. split; [lia | reflexivity]. }
      cbv zeta in Hone.
      destruct (if bool_decide (g ≠ NONE)
                then updateGestureUI g (now k) s else (s, [])) as [s1 fx1].
      specialize (IH (S k) s1). cbv zeta in IH.
      destruct (forHands hands now (S k) s1) as [[s2 fx2] ok].
      simpl in *.
      destruct IH as [Hsame | (Hgap & j & Hj & Hread)].
      * rewrite Hsame. destruct Hone as [Hsame1 | (Hgap1 & Hread1)];
          [left; exact Hsame1|].
        right. split; [exact Hgap1|]. exists 0. split; [lia|].
        rewrite Nat.add_0_r. exact Hread1.
      * right. split.
        -- destruct Hone as [Hsame1 | (Hgap1 & _)]; lia.
        -- exists (S j). split; [lia|].
           replace (k + S j) with (S (k + j)) by lia. exact Hread.
    + rewrite (forHands_throw h hands now k s Hg). left. reflexivity.
Qed.

(** [lastGestureTime] never goes back, whatever the clock reads.  Over
    every history it is either what it was, or more than 2000 ms above
    what it was and equal to a reading of [Date.now()] that a landmark
    callback of the history took for one of its hands. *)
Theorem lastGestureTime_monotone events s :
  let T := lastGestureTime s in
  let T' := lastGestureTime (run events s).1 in
  (T ≤ T')%Z
  ∧ (T' = T
     ∨ ((T + 2000 < T')%Z
        ∧ ∃ hands now (j : nat),
            In (Results (Some hands) now) events
            ∧ j < length hands ∧ T' = now j)).
Proof.
  cbv zeta.
  assert (lastGestureTime (run events s).1 = lastGestureTime s
          ∨ ((lastGestureTime s + 2000 < lastGestureTime (run events s).1)%Z
             ∧ ∃ hands now (j : nat),
                 In (Results (Some hands) now) events
                 ∧ j < length hands
                 ∧ lastGestureTime (run events s).1 = now j)) as Hmove.
  { revert s. induction events as [|e events IH]; intros s;
      [left; reflexivity|].
    destruct (run_cons e events s) as [-> _].
    assert (lastGestureTime (step e s).1 = lastGestureTime s
            ∨ ((lastGestureTime s + 2000 < lastGestureTime (step e s).1)%Z
               ∧ ∃ hands now (j : nat),
                   e = Results (Some hands) now ∧ j < length hands
                   ∧ lastGestureTime (step e s).1 = now j)) as Hstep.
    { destruct (is_results e) eqn:He.
      - destruct e as [| | | | |multi now| | |]; try discriminate He.
        destruct multi as [hands|]; [|left; reflexivity].
        change (step (Results (Some hands) now) s)
          with (onResults (Some hands) now s).
        destruct (onResults_forHands hands now s) as [-> _].
        destruct (forHands_time hands now 0 s)
          as [Hsame | (Hgap & j & Hj & Hread)]; [left; exact Hsame|].
        right. split; [exact Hgap|]. exists hands, now, j.
        split; [reflexivity|]. split; [exact Hj | exact Hread].
      - left. pose proof (step_gestureState e s He) as Hkeep.
        unfold gestureState in Hkeep. congruence. }
    destruct (IH (step e s).1)
      as [Hsame | (Hgap & hands & now & j & Hin & Hj & Hread)].
    - rewrite Hsame.
      destruct Hstep as [Hsame1 | (Hgap1 & hands & now & j & -> & Hj & Hread)];
        [left; exact Hsame1|].
      right. split; [exact Hgap1|]. exists hands, now, j.
      split; [left; reflexivity|]. split; [exact Hj | exact Hread].
    - right. split.
      + destruct Hstep as [Hsame1 | (Hgap1 & _)]; lia.
      + exists hands, now, j.
        split; [right; exact Hin|]. split; [exact Hj | exact Hread]. }
  split; [|exact Hmove].
  destruct Hmove as [-> | [Hgap _]]; lia.
Qed.

Lemma updateGestureUI_bound g (t lo hi : Z) s :
  (lo ≤ t ≤ hi)%Z →
  gate_bound lo hi (lastGestureTime s)
    (lastGestureTime (updateGestureUI g t s).1)
    (length (filter (λ m, topic m = lit "gesture")
               (outbound (updateGestureUI g t s).2))).
Proof.
  intros Hwin. unfold gate_bound.
  destruct (updateGestureUI_cases g t s)
    as [[-> ->] | (Ht & _ & -> & [-> | (_ & _ & ->)])]; simpl; lia.
Qed.

Lemma gate_bound_compose (lo hi T T1 T2 : Z) (n1 n2 : nat) :
  gate_bound lo hi T T1 n1 → gate_bound lo hi T1 T2 n2 →
  gate_bound lo hi T T2 (n1 + n2).
Proof. unfold gate_bound. lia. Qed.

Lemma forHands_bound hands now (lo hi : Z) :
  ∀ k s,
    (∀ j : nat, j < length hands → (lo ≤ now (k + j)%nat ≤ hi)%Z) →
    gate_bound lo hi (lastGestureTime s)
      (lastGestureTime (forHands hands now k s).1.1)
      (length (gesture_sent (forHands hands now k s).1.2)).
Proof.
  induction hands as [|h hands IH]; intros k s Hwin.
  - simpl. unfold gate_bound. simpl. lia.
  - destruct (detectGesture h) as [g|] eqn:Hg.
    + rewrite (forHands_cons h hands now k s g Hg).
      assert (gate_bound lo hi (lastGestureTime s)
                (lastGestureTime
                   (if bool_decide (g ≠ NONE)
                    then updateGestureUI g (now k) s else (s, [])).1)
                (length (gesture_sent
                   (if bool_decide (g ≠ NONE)
                    then updateGestureUI g (now k) s else (s, [])).2)))
        as Hone.
      { destruct (bool_decide (g ≠ NONE)).
        - apply updateGestureUI_bound.
          specialize (Hwin 0). rewrite Nat.add_0_r in Hwin.
          apply Hwin. simpl. lia.
        - unfold gate_bound. simpl. lia. }
      destruct (if bool_decide (g ≠ NONE)
                then updateGestureUI g (now k) s else (s, [])) as [s1 fx1].
      assert (gate_bound lo hi (lastGestureTime s1)
                (lastGestureTime (forHands hands now (S k) s1).1.1)
                (length (gesture_sent (forHands hands now (S k) s1).1.2)))
        as Hrest.
      { apply IH. intros j Hj. specialize (Hwin (S j)).
        replace (S k + j) with (k + S j) by lia. apply Hwin. simpl. lia. }
      destruct (forHands hands now (S k) s1) as [[s2 fx2] ok]. simpl in *.
      change (gesture_sent (CanvasDrawHand h :: fx1 ++ fx2))
        with (gesture_sent (fx1 ++ fx2)).
      rewrite gesture_sent_app, length_app.
      exact (gate_bound_compose _ _ _ _ _ _ _ Hone Hrest).
    + rewrite (forHands_throw h hands now k s Hg).
      unfold gate_bound. simpl. lia.
Qed.

Lemma step_bound (e : Event) s (lo hi : Z) :
  readings_within lo hi e →
  gate_bound lo hi (lastGestureTime s) (lastGestureTime (step e s).1)
    (length (gesture_sent (step e s).2)).
Proof.
  intros Hwin. destruct (is_results e) eqn:He.
  - destruct e as [| | | | |multi now| | |]; try discriminate He.
    simpl. destruct multi as [hands|];
      [|unfold gate_bound; simpl; lia].
    destruct (onResults_forHands hands now s) as [Hs Hfx].
    rewrite Hs. unfold gesture_sent. rewrite Hfx.
    apply (forHands_bound hands now lo hi 0 s). exact Hwin.
  - rewrite (step_no_gesture e s He).
    pose proof (step_gestureState e s He) as Hkeep.
    unfold gestureState in Hkeep. injection Hkeep as _ Ht.
    unfold gate_bound. simpl. lia.
Qed.

Lemma run_bound events (lo hi : Z) :
  Forall (readings_within lo hi) events →
  ∀ s, gate_bound lo hi (lastGestureTime s) (lastGestureTime (run events s).1)
         (length (gesture_sent (run events s).2)).
Proof.
  induction 1 as [|e events He _ IH]; intros s.
  - unfold gate_bound. simpl. lia.
  - destruct (run_cons e events s) as [-> ->].
    rewrite gesture_sent_app, length_app.
    exact (gate_bound_compose _ _ _ _ _ _ _ (step_bound e s lo hi He)
             (IH (step e s).1)).
Qed.

(** The rate limit the gate enforces.  Over any history whose landmark
    callbacks read the clock between [lo] and [hi], consecutive gesture
    messages are more than 2000 ms apart: [n >= 1] messages need
    [2001 * (n - 1) <= hi - lo], so a window of 3000 ms carries at most
    two.  Clicks, chat and promise settlements in between do not
    matter. *)
Theorem gesture_rate_limit events s (lo hi : Z) :
  Forall (readings_within lo hi) events →
  let n := length (gesture_sent (run events s).2) in
  1 ≤ n → (2001 * (Z.of_nat n - 1) ≤ hi - lo)%Z.
Proof.
  intros Hwin n Hn. pose proof (run_bound events lo hi Hwin s) as Hb.
  fold n in Hb. unfold gate_bound in Hb. lia.
Qed.

Lemma gesture_rate_limit_witness :
  length (gesture_sent
            (run [Results (Some [open_hand]) (λ _, 5000%Z);
                  Results (Some [open_hand]) (λ _, 6000%Z);
                  Results (Some [fist_hand]) (λ _, 7001%Z)] online).2) = 2
  ∧ (2001 * (Z.of_nat 2 - 1) ≤ 7001 - 5000)%Z.
Proof.
  assert (length (gesture_sent
            (run [Results (Some [open_hand]) (λ _, 5000%Z);
                  Results (Some [open_hand]) (λ _, 6000%Z);
                  Results (Some [fist_hand]) (λ _, 7001%Z)] online).2) = 2)
    as Hn by reflexivity.
  split; [exact Hn|]. rewrite <- Hn.
  apply (gesture_rate_limit
           [Results (Some [open_hand]) (λ _, 5000%Z);
            Results (Some [open_hand]) (λ _, 6000%Z);
            Results (Some [fist_hand]) (λ _, 7001%Z)] online 5000 7001).
  - repeat constructor; simpl; lia.
  - rewrite Hn. lia.
Defined.

(** The loop of [onResults] never touches the session. *)
Lemma forHands_sessionState hands now (k : nat) s :
  sessionState (forHands hands now k s).1.1 = sessionState s.
Proof.
  apply (forHands_invariant (λ _ s1 s2 _, sessionState s2 = sessionState s1)).
  - reflexivity.
  - intros k0 s0 g s2 _. cbv zeta. intros ->.
    destruct (bool_decide (g ≠ NONE)); [|reflexivity].
    apply updateGestureUI_sessionState.
Qed.

(** A held pose.  Once [g] is the last gesture let through, callbacks
    that show [g] again, or nothing recognised, or a frame too short to
    classify, leave the state alone and send nothing, however late they
    come. *)
Lemma forHands_held g hands now :
  Forall (λ h, ∀ g', detectGesture h = Some g' → g' = NONE ∨ g' = g) hands →
  ∀ (k : nat) s, lastGesture s = g →
    (forHands hands now k s).1.1 = s
    ∧ outbound (forHands hands now k s).1.2 = [].
Proof.
  induction 1 as [|h hands Hh _ IH]; intros k s Hlast;
    [split; reflexivity|].
  destruct (detectGesture h) as [g'|] eqn:Hg.
  - rewrite (forHands_cons h hands now k s g' Hg).
    assert ((if bool_decide (g' ≠ NONE)
             then updateGestureUI g' (now k) s else (s, [])).1 = s
            ∧ outbound (if bool_decide (g' ≠ NONE)
                        then updateGestureUI g' (now k) s else (s, [])).2 = [])
      as [Hs Hfx].
    { case_bool_decide as Hne; [|split; reflexivity].
      apply updateGestureUI_shut. intros [_ Hdiff].
      destruct (Hh g' eq_refl) as [-> | ->]; congruence. }
    destruct (if bool_decide (g' ≠ NONE)
              then updateGestureUI g' (now k) s else (s, [])) as [s1 fx1].
    simpl in Hs, Hfx. subst s1.
    destruct (IH (S k) s Hlast) as [Hs2 Hfx2].
    destruct (forHands hands now (S k) s) as [[s2 fx2] ok]. simpl in *.
    split; [exact Hs2|].
    change (omap outbound_of (fx1 ++ fx2)) with (outbound (fx1 ++ fx2)).
    rewrite outbound_app, Hfx, Hfx2. reflexivity.
  - rewrite (forHands_throw h hands now k s Hg). split; reflexivity.
Qed.

(** The same gesture is never sent twice in a row.  From a state whose
    last gesture is [g], a history in which every hand shows [g] or
    nothing recognised sends no gesture message and leaves the gate
    state as it was, no matter how much time passes and whatever else
    (clicks, chat, connects) happens in between. *)
Theorem held_gesture_sent_once events s g :
  lastGesture s = g → Forall (shows_only g) events →
  gestureState (run events s).1 = gestureState s
  ∧ gesture_sent (run events s).2 = [].
Proof.
  intros Hlast Hall. revert s Hlast.
  induction Hall as [|e events He _ IH]; intros s Hlast;
    [split; reflexivity|].
  destruct (run_cons e events s) as [-> ->].
  assert (gestureState (step e s).1 = gestureState s
          ∧ gesture_sent (step e s).2 = []) as [Hkeep Hnone].
  { destruct (is_results e) eqn:Hres.
    - destruct e as [| | | | |multi now| | |]; try discriminate Hres.
      simpl. destruct multi as [hands|]; [|split; reflexivity].
      destruct (onResults_forHands hands now s) as [Hs Hfx].
      destruct (forHands_held g hands now He 0 s Hlast) as [Hs' Hfx'].
      rewrite Hs, Hs'. split; [reflexivity|].
      apply gesture_sent_outbound_nil. rewrite Hfx. exact Hfx'.
    - split; [apply step_gestureState | apply step_no_gesture]; exact Hres. }
  destruct (IH (step e s).1) as [Hkeep' Hnone'].
  { unfold gestureState in Hkeep. congruence. }
  rewrite gesture_sent_app, Hnone, Hnone'. split; [congruence | reflexivity].
Qed.

Lemma held_gesture_sent_once_witness :
  gestureState
    (run [Results (Some [open_hand]) (λ _, 9000%Z); Click_connectBtn;
          Results (Some [pointing_hand; open_hand]) (λ _, 90000%Z)]
         (updateGestureUI Open_Palm 5000 online).1).1
  = (Open_Palm, 5000%Z)
  ∧ gesture_sent
      (run [Results (Some [open_hand]) (λ _, 9000%Z); Click_connectBtn;
            Results (Some [pointing_hand; open_hand]) (λ _, 90000%Z)]
           (updateGestureUI Open_Palm 5000 online).1).2 = [].
Proof.
  apply (held_gesture_sent_once
           [Results (Some [open_hand]) (λ _, 9000%Z); Click_connectBtn;
            Results (Some [pointing_hand; open_hand]) (λ _, 90000%Z)]
           (updateGestureUI Open_Palm 5000 online).1 Open_Palm).
  - reflexivity.
  - repeat (apply List.Forall_cons || apply List.Forall_nil); simpl;
      try exact I;
      repeat (apply List.Forall_cons || apply List.Forall_nil);
      intros g' Hg'; vm_compute in Hg'; injection Hg' as <-; auto.
Defined.

(** What each guard keeps off the transport, for every event: without a
    room object nothing is published at all, and while [isConnected] is
    false no gesture message is published. *)
Theorem step_publish_guards (e : Event) s :
  (room s = None → outbound (step e s).2 = [])
  ∧ (isConnected s = false → gesture_sent (step e s).2 = []).
Proof.
  destruct (is_results e) eqn:Hres.
  - destruct e as [| | | | |multi now| | |]; try discriminate Hres.
    simpl. destruct multi as [hands|]; [|split; reflexivity].
    destruct (onResults_forHands hands now s) as [_ Hfx].
    unfold gesture_sent. rewrite Hfx. split.
    + apply (forHands_invariant (λ _ s1 _ out, room s1 = None → out = [])).
      * reflexivity.
      * intros k s0 g s2 out2. cbv zeta. intros Hrest Hroom.
        assert (room (if bool_decide (g ≠ NONE)
                      then updateGestureUI g (now k) s0 else (s0, [])).1
                = None ∧
                outbound (if bool_decide (g ≠ NONE)
                          then updateGestureUI g (now k) s0 else (s0, [])).2
                = []) as [Hr Hout].
        { destruct (bool_decide (g ≠ NONE)); [|split; [exact Hroom | reflexivity]].
          pose proof (updateGestureUI_sessionState g (now k) s0) as Hsess.
          unfold sessionState in Hsess. split; [congruence|].
          destruct (updateGestureUI_cases g (now k) s0)
            as [[_ Hnil] | (_ & _ & _ & [Hnil | (_ & [r Hsome] & _)])];
            [exact Hnil | exact Hnil | congruence]. }
        rewrite Hout, (Hrest Hr). reflexivity.
    + intros Hoff.
      assert (outbound (forHands hands now 0 s).1.2 = []) as ->;
        [|reflexivity].
      revert Hoff.
      apply (forHands_invariant
               (λ _ s1 _ out, isConnected s1 = false → out = [])).
      * reflexivity.
      * intros k s0 g s2 out2. cbv zeta. intros Hrest Hoff.
        assert (isConnected (if bool_decide (g ≠ NONE)
                      then updateGestureUI g (now k) s0 else (s0, [])).1
                = false ∧
                outbound (if bool_decide (g ≠ NONE)
                          then updateGestureUI g (now k) s0 else (s0, [])).2
                = []) as [Hc Hout].
        { destruct (bool_decide (g ≠ NONE)); [|split; [exact Hoff | reflexivity]].
          pose proof (updateGestureUI_sessionState g (now k) s0) as Hsess.
          unfold sessionState in Hsess. split; [congruence|].
          apply updateGestureUI_disconnected_silent. exact Hoff. }
        rewrite Hout, (Hrest Hc). reflexivity.
  - split; [|intros _; apply step_no_gesture; exact Hres].
    intros Hroom. destruct e; try discriminate Hres; clear Hres;
      unfold step, connectBtn_click, launch, connectToLiveKit, micBtn_click,
        sendChatMessage, settle, resume, onDataReceived,
        onActiveSpeakersChanged, catch_connect, tail_of, click_tail;
      rewrite ?Hroom; repeat case_match; simplify_eq; reflexivity.
Qed.

Lemma step_publish_guards_witness :
  outbound (step Click_sendBtn (set_chatInput_value (lit "hi") init)).2 = []
  ∧ gesture_sent
      (step (Results (Some [open_hand]) (λ _, 5000%Z)) disconnected_again).2
    = [].
Proof.
  destruct (step_publish_guards Click_sendBtn
              (set_chatInput_value (lit "hi") init)) as [Hroom _].
  destruct (step_publish_guards (Results (Some [open_hand]) (λ _, 5000%Z))
              disconnected_again) as [_ Hoff].
  split; [apply Hroom | apply Hoff]; reflexivity.
Defined.

(** The two halves of the state do not interfere.  Landmark callbacks
    never change the session (room, flags, text box, pending calls,
    counters); all other events never change the gate's two fields. *)
Theorem gate_and_session_separate events s :
  (Forall (λ e, is_results e = true) events →
   sessionState (run events s).1 = sessionState s)
  ∧ (Forall (λ e, is_results e = false) events →
     gestureState (run events s).1 = gestureState s).
Proof.
  split; [|apply run_gestureState].
  intros Hall. revert s.
  induction Hall as [|e events He _ IH]; intros s; [reflexivity|].
  destruct (run_cons e events s) as [-> _]. rewrite IH.
  destruct e as [| | | | |multi now| | |]; try discriminate He.
  simpl. destruct multi as [hands|]; [|reflexivity].
  destruct (onResults_forHands hands now s) as [-> _].
  apply forHands_sessionState.
Qed.

Lemma gate_and_session_separate_witness :
  sessionState
    (run [Results (Some [open_hand]) (λ _, 5000%Z);
          Results (Some [fist_hand]) (λ _, 9000%Z)] online).1
  = sessionState online
  ∧ gestureState (run connect_ok init).1 = gestureState init.
Proof.
  destruct (gate_and_session_separate
              [Results (Some [open_hand]) (λ _, 5000%Z);
               Results (Some [fist_hand]) (λ _, 9000%Z)] online) as [Hs _].
  destruct (gate_and_session_separate connect_ok init) as [_ Hg].
  split; [apply Hs | apply Hg]; repeat constructor.
Defined.

(** Inbound transport events are display-only: they leave the whole
    state as it was and every effect they have is a write to the page;
    a data message on a topic other than "chat_message" leaves no trace
    at all. *)
Theorem inbound_display_only events s :
  Forall (λ e, is_inbound e = true) events →
  (run events s).1 = s
  ∧ Forall (λ e, display_only e = true) (run events s).2
  ∧ ∀ strData topic', topic' ≠ lit "chat_message" →
      step (DataReceived strData topic') s = (s, []).
Proof.
  intros Hall. split; [|split].
  - revert s. induction Hall as [|e events He _ IH]; intros s; [reflexivity|].
    destruct (run_cons e events s) as [-> _]. rewrite IH.
    destruct e; try discriminate He; reflexivity.
  - revert s. induction Hall as [|e events He _ IH]; intros s; [constructor|].
    destruct (run_cons e events s) as [_ ->]. apply Forall_app. split; [|apply IH].
    destruct e; try discriminate He; simpl.
    + unfold onDataReceived. case_bool_decide; repeat constructor.
    + unfold onActiveSpeakersChanged.
      destruct (0 <? length speakers); repeat constructor.
  - intros strData topic' Hne. simpl. unfold onDataReceived.
    rewrite bool_decide_eq_false_2 by exact Hne. reflexivity.
Qed.

Lemma inbound_display_only_witness :
  (run [DataReceived (lit "hello") (lit "chat_message");
        ActiveSpeakersChanged [lit "agent"];
        ActiveSpeakersChanged []] online).1 = online
  ∧ (run [DataReceived (lit "hello") (lit "chat_message")] online).2
    = [AddLog (lit "L.I.S.A: hello") LogAgent].
Proof.
  destruct (inbound_display_only
              [DataReceived (lit "hello") (lit "chat_message");
               ActiveSpeakersChanged [lit "agent"];
               ActiveSpeakersChanged []] online) as [Hs _];
    [repeat constructor|].
  split; [exact Hs | reflexivity].
Defined.

End GateHistories.

(* ===================================================================== *)
(** * The session over whole histories *)
(* ===================================================================== *)

Section SessionHistories.

Implicit Types (s : State) (k : Cont) (events : list Event).

Lemma well_formed_init : well_formed init.
Proof.
  unfold well_formed. simpl.
  split_and!;
    first [discriminate
          | intros tid k Hk; rewrite lookup_empty in Hk; discriminate].
Qed.

Lemma well_formed_sessionState s1 s2 :
  sessionState s1 = sessionState s2 → well_formed s1 → well_formed s2.
Proof.
  unfold sessionState, well_formed. intros Heq. simplify_eq.
  repeat match goal with H : _ s1 = _ s2 |- _ => rewrite H; clear H end.
  tauto.
Qed.

Lemma well_formed_insert s (tid : nat) k :
  well_formed s → tid < nextTask s →
  (needs_room k = true → is_Some (room s)) →
  well_formed (set_pending (<[tid := k]> (pending s)) s).
Proof.
  intros (Hc & Hm & Hp & Hr) Htid Hk. unfold well_formed. simpl.
  split_and!; try assumption.
  intros tid' k' Hlk. apply lookup_insert_Some in Hlk as [[<- <-] | [_ Hlk]].
  - split; assumption.
  - apply (Hp tid' k' Hlk).
Qed.

Lemma well_formed_delete s (tid : nat) :
  well_formed s → well_formed (set_pending (delete tid (pending s)) s).
Proof.
  intros (Hc & Hm & Hp & Hr). unfold well_formed. simpl.
  split_and!; try assumption.
  intros tid' k' Hlk. apply lookup_delete_Some in Hlk as [_ Hlk].
  apply (Hp tid' k' Hlk).
Qed.

Lemma well_formed_spawn s k :
  well_formed s → (needs_room k = true → is_Some (room s)) →
  well_formed (spawn k s).
Proof.
  intros (Hc & Hm & Hp & Hr) Hk. unfold well_formed. simpl.
  split_and!; try assumption.
  intros tid' k' Hlk. apply lookup_insert_Some in Hlk as [[<- <-] | [_ Hlk]].
  - split; [lia | assumption].
  - destruct (Hp tid' k' Hlk) as [Hlt Hroom]. split; [lia | assumption].
Qed.

Lemma well_formed_new_room s : well_formed s → well_formed (new_room s).
Proof.
  intros (Hc & Hm & Hp & Hr). unfold well_formed. simpl.
  split_and!; try (intros; eexists; reflexivity).
  - intros tid k Hlk. destruct (Hp tid k Hlk) as [Hlt _].
    split; [assumption | intros; eexists; reflexivity].
  - intros r Heq. injection Heq as <-. lia.
Qed.

Lemma well_formed_set_isConnected s (b : bool) :
  well_formed s → (b = true → is_Some (room s)) →
  well_formed (set_isConnected b s).
Proof.
  intros (Hc & Hm & Hp & Hr) Hb. unfold well_formed. simpl.
  split_and!; assumption.
Qed.

Lemma well_formed_set_isMicOn s (b : bool) :
  well_formed s → (b = true → is_Some (room s)) →
  well_formed (set_isMicOn b s).
Proof.
  intros (Hc & Hm & Hp & Hr) Hb. unfold well_formed. simpl.
  split_and!; assumption.
Qed.

Lemma well_formed_set_chatInput_value s (v : jsstring) :
  well_formed s → well_formed (set_chatInput_value v s).
Proof. intros Hwf. exact Hwf. Qed.

Lemma well_formed_launch_send s :
  well_formed s → well_formed (launch (sendChatMessage s) []).1.
Proof.
  intros Hwf. unfold sendChatMessage.
  destruct (trim (chatInput_value s)); [exact Hwf|].
  destruct (room s) as [r|] eqn:Hr; [|exact Hwf].
  simpl. apply well_formed_spawn; [exact Hwf|].
  intros _. rewrite Hr. eexists; reflexivity.
Qed.

Lemma well_formed_settle s (tid : nat) (o : Outcome) :
  well_formed s → well_formed (settle tid o s).1.
Proof.
  intros Hwf. unfold settle.
  destruct (pending s !! tid) as [k|] eqn:Hk; [|exact Hwf].
  destruct Hwf as (Hc & Hm & Hp & Hr).
  destruct (Hp tid k Hk) as [Htid Hroom].
  assert (well_formed s) as Hwf by (split_and!; assumption).
  destruct k, o as [[]|token| |message]; simpl; try exact Hwf;
    try (apply well_formed_delete; exact Hwf).
  - (* K_fetch, Response true *)
    apply well_formed_insert; [exact Hwf | exact Htid | discriminate].
  - (* K_json, Json *)
    apply (well_formed_insert (new_room s));
      [apply well_formed_new_room; exact Hwf | exact Htid |].
    intros _. eexists; reflexivity.
  - (* K_connect, Fulfilled *)
    destruct (Hroom eq_refl) as [r Hsome]. rewrite Hsome. simpl.
    apply (well_formed_insert (set_isConnected true s)).
    + apply well_formed_set_isConnected; [exact Hwf|].
      intros _. rewrite Hsome. eexists; reflexivity.
    + exact Htid.
    + intros _. simpl. rewrite Hsome. eexists; reflexivity.
  - (* K_enableMic, Fulfilled *)
    apply (well_formed_delete (set_isMicOn true s)).
    apply well_formed_set_isMicOn; [exact Hwf|]. intros _. apply Hroom.
    reflexivity.
  - (* K_publish, Fulfilled *)
    apply (well_formed_delete (set_chatInput_value [] s)). exact Hwf.
Qed.

Lemma well_formed_step (e : Event) s :
  well_formed s → well_formed (step e s).1.
Proof.
  intros Hwf. destruct e as [| | |key|value|multi now|tid o| |]; simpl.
  - unfold connectBtn_click, connectToLiveKit.
    destruct (isConnected s); simpl.
    + apply well_formed_set_isConnected; [exact Hwf | discriminate].
    + apply well_formed_spawn; [exact Hwf | discriminate].
  - unfold micBtn_click. destruct (room s) as [r|] eqn:Hr; [|exact Hwf].
    simpl. apply (well_formed_spawn (set_isMicOn (negb (isMicOn s)) s)).
    + apply well_formed_set_isMicOn; [exact Hwf|].
      intros _. rewrite Hr. eexists; reflexivity.
    + intros _. simpl. rewrite Hr. eexists; reflexivity.
  - apply well_formed_launch_send. exact Hwf.
  - case_bool_decide; [apply well_formed_launch_send|]; exact Hwf.
  - exact Hwf.
  - destruct multi as [hands|]; [|exact Hwf].
    destruct (onResults_forHands hands now s) as [-> _].
    apply (well_formed_sessionState s); [|exact Hwf].
    symmetry. apply forHands_sessionState.
  - apply well_formed_settle. exact Hwf.
  - exact Hwf.
  - exact Hwf.
Qed.

Lemma reachable_well_formed_aux events : well_formed (run events init).1.
Proof.
  generalize well_formed_init. generalize init.
  induction events as [|e events IH]; intros s Hwf; [exact Hwf|].
  destruct (run_cons e events s) as [-> _].
  apply IH, well_formed_step, Hwf.
Qed.

(** In every state the page can reach from its initial one: a connected
    session, a switched-on microphone and every suspended call that will
    use the room all have a room object (so the TypeError arm of the
    connect continuation is never taken); the identifier of every
    suspended call lies below the next one handed out (a new call never
    overwrites a parked one); and the current room was allocated before
    the next one. *)
Theorem reachable_well_formed events :
  let s := (run events init).1 in
  (isConnected s = true → is_Some (room s))
  ∧ (isMicOn s = true → is_Some (room s))
  ∧ (∀ tid k, pending s !! tid = Some k →
     tid < nextTask s ∧ (needs_room k = true → is_Some (room s)))
  ∧ (∀ r, room s = Some r → r < nextRoom s).
Proof.
  cbv zeta. exact (reachable_well_formed_aux events).
Qed.

(** So in every reachable state the [room &&] half of the gesture guard
    is redundant: a gesture that passes the gate is published exactly
    when [isConnected] holds. *)
Theorem reachable_gesture_sent_iff_connected events (g : Gesture) (t : Z) :
  let s := (run events init).1 in
  (t - lastGestureTime s > 2000)%Z → g ≠ lastGesture s →
  (outbound (updateGestureUI g t s).2 = [gesture_message g]
   ↔ isConnected s = true).
Proof.
  intros s Ht Hg.
  destruct (updateGestureUI_open g t s Ht Hg) as [_ ->].
  pose proof (reachable_well_formed_aux events) as Hwf.
  fold s in Hwf. destruct Hwf as (Hc & _).
  destruct (isConnected s).
  - destruct (Hc eq_refl) as [r ->]. split; reflexivity.
  - destruct (room s); split; discriminate.
Qed.

Lemma reachable_gesture_sent_iff_connected_witness :
  (outbound (updateGestureUI Open_Palm 5000 (run connect_ok init).1).2
   = [gesture_message Open_Palm]
   ↔ isConnected (run connect_ok init).1 = true)
  ∧ (outbound (updateGestureUI Open_Palm 5000
                 (run (connect_ok ++ [Click_connectBtn]) init).1).2
     = [gesture_message Open_Palm]
     ↔ isConnected (run (connect_ok ++ [Click_connectBtn]) init).1 = true).
Proof.
  split.
  - apply (reachable_gesture_sent_iff_connected connect_ok Open_Palm 5000);
      [reflexivity | discriminate].
  - apply (reachable_gesture_sent_iff_connected
             (connect_ok ++ [Click_connectBtn]) Open_Palm 5000);
      [reflexivity | discriminate].
Defined.

Lemma step_room_kept (e : Event) s :
  is_Some (room s) → is_Some (room (step e s).1).
Proof.
  intros [r Hr]. destruct (is_results e) eqn:Hres.
  - destruct e as [| | | | |multi now| | |]; try discriminate Hres.
    destruct multi as [hands|]; [|simpl; rewrite Hr; eexists; reflexivity].
    change (step (Results (Some hands) now) s)
      with (onResults (Some hands) now s).
    destruct (onResults_forHands hands now s) as [-> _].
    pose proof (forHands_sessionState hands now 0 s) as Hsess.
    apply (f_equal (λ t, t.1.1.1.1.1.1)) in Hsess. simpl in Hsess.
    rewrite Hsess, Hr. eexists; reflexivity.
  - destruct e; try discriminate Hres; clear Hres;
      unfold step, connectBtn_click, launch, connectToLiveKit, micBtn_click,
        sendChatMessage, settle, resume;
      rewrite ?Hr; repeat case_match; simplify_eq; simpl;
      first [eexists; reflexivity | eexists; eassumption].
Qed.

(** No handler ever sets [room] back to null.  Once a room object
    exists, it exists after every later history (disconnects and failed
    connects included), and from then on a click on [sendBtn] with a
    text that is not blank always publishes it, connected or not. *)
Theorem room_never_reset events s :
  is_Some (room s) →
  is_Some (room (run events s).1)
  ∧ ∀ v, trim v ≠ [] →
      outbound (step Click_sendBtn
                  (set_chatInput_value v (run events s).1)).2
      = [chat_message (trim v)].
Proof.
  intros Hroom.
  assert (is_Some (room (run events s).1)) as Hkept.
  { revert s Hroom. induction events as [|e events IH]; intros s Hroom;
      [exact Hroom|].
    destruct (run_cons e events s) as [-> _].
    apply IH, step_room_kept, Hroom. }
  split; [exact Hkept|].
  intros v Hv. destruct Hkept as [r Hr].
  unfold step, sendChatMessage. simpl. rewrite Hr.
  destruct (trim v); [congruence | reflexivity].
Qed.

Lemma room_never_reset_witness :
  is_Some (room (run [Click_connectBtn; Click_connectBtn;
                      Settled 5 (Rejected (lit "network"))] online).1)
  ∧ outbound (step Click_sendBtn
                (set_chatInput_value (lit " hi ")
                   (run [Click_connectBtn; Click_connectBtn;
                         Settled 5 (Rejected (lit "network"))] online).1)).2
    = [chat_message (lit "hi")].
Proof.
  destruct (room_never_reset
              [Click_connectBtn; Click_connectBtn;
               Settled 5 (Rejected (lit "network"))] online) as [Hkept Hsend];
    [eexists; reflexivity|].
  split; [exact Hkept|]. apply (Hsend (lit " hi ")). discriminate.
Defined.

(** A connect that succeeds.  From any state with [isConnected] false, a
    click on [connectBtn] followed by the four settlements of its call
    (token response, JSON body, transport connect, microphone publish)
    fetches one token, opens one transport connection on a freshly
    allocated room, leaves [isConnected] and [isMicOn] true with the
    microphone enabled once, parks nothing, and does not touch the gate
    state. *)
Theorem connect_succeeds s (token : jsstring) :
  isConnected s = false →
  let tid := nextTask s in
  let r := run [Click_connectBtn; Settled tid (Response true);
                Settled tid (Json token); Settled tid Fulfilled;
                Settled tid Fulfilled] s in
  room r.1 = Some (nextRoom s)
  ∧ isConnected r.1 = true ∧ isMicOn r.1 = true
  ∧ pending r.1 = delete tid (pending s)
  ∧ gestureState r.1 = gestureState s
  ∧ connect_attempts r.2
    = [Fetch (API_URL ++ lit "/token");
       RoomConnect (nextRoom s) LIVEKIT_URL token]
  ∧ mic_ops r.2 = [true]
  ∧ outbound r.2 = [].
Proof.
  intros Hc tid.
  set (s1 := spawn K_fetch s).
  set (s2 := set_pending (<[tid := K_json]> (pending s1)) s1).
  set (s3 := set_pending (<[tid := K_connect]> (pending (new_room s2)))
                         (new_room s2)).
  set (s4 := set_pending
               (<[tid := K_enableMic]> (pending (set_isConnected true s3)))
               (set_isConnected true s3)).
  set (s5 := set_pending (delete tid (pending (set_isMicOn true s4)))
                         (set_isMicOn true s4)).
  assert (step Click_connectBtn s
          = (s1, [AddLog (lit "Requesting access token...") LogSystem;
                  Fetch (API_URL ++ lit "/token")])) as E1.
  { unfold step, connectBtn_click, connectToLiveKit. rewrite Hc. reflexivity. }
  assert (step (Settled tid (Response true)) s1 = (s2, [ResponseJson])) as E2.
  { unfold step, settle.
    replace (pending s1 !! tid) with (Some K_fetch)
      by (symmetry; apply lookup_insert_eq).
    reflexivity. }
  assert (step (Settled tid (Json token)) s2
          = (s3, [AddLog (lit "Token acquired. Connecting to LiveKit...")
                         LogSystem;
                  NewRoom (nextRoom s);
                  RoomConnect (nextRoom s) LIVEKIT_URL token])) as E3.
  { unfold step, settle.
    replace (pending s2 !! tid) with (Some K_json)
      by (symmetry; apply lookup_insert_eq).
    reflexivity. }
  assert (∃ fx4, step (Settled tid Fulfilled) s3 = (s4, fx4)
                 ∧ connect_attempts fx4 = [] ∧ mic_ops fx4 = [true]
                 ∧ outbound fx4 = []) as (fx4 & E4 & Ha4 & Hm4 & Ho4).
  { eexists. split.
    - unfold step, settle.
      replace (pending s3 !! tid) with (Some K_connect)
        by (symmetry; apply lookup_insert_eq).
      reflexivity.
    - split_and!; reflexivity. }
  assert (step (Settled tid Fulfilled) s4
          = (s5, [SetInnerText micBtn (lit "MUTE MIC")] ++ click_tail)) as E5.
  { unfold step, settle.
    replace (pending s4 !! tid) with (Some K_enableMic)
      by (symmetry; apply lookup_insert_eq).
    reflexivity. }
  intros r. subst r.
  rewrite (run_step _ _ _ _ _ E1), (run_step _ _ _ _ _ E2),
    (run_step _ _ _ _ _ E3), (run_step _ _ _ _ _ E4),
    (run_step _ _ _ _ _ E5).
  cbn [run fst snd]. rewrite !app_nil_r.
  split; [reflexivity|]. split; [reflexivity|]. split; [reflexivity|].
  split.
  { subst s5 s4 s3 s2 s1.
    cbn [pending set_pending set_isMicOn set_isConnected new_room spawn].
    rewrite !delete_insert_eq. reflexivity. }
  split; [reflexivity|].
  unfold connect_attempts, mic_ops, outbound in *.
  rewrite !filter_app, !omap_app, Ha4, Hm4, Ho4.
  split_and!; reflexivity.
Qed.

Lemma connect_succeeds_witness :
  room (run [Click_connectBtn; Settled 1 (Response true);
             Settled 1 (Json (lit "jwt2")); Settled 1 Fulfilled;
             Settled 1 Fulfilled] disconnected_again).1 = Some 1
  ∧ connect_attempts
      (run [Click_connectBtn; Settled 1 (Response true);
            Settled 1 (Json (lit "jwt2")); Settled 1 Fulfilled;
            Settled 1 Fulfilled] disconnected_again).2
    = [Fetch (API_URL ++ lit "/token");
       RoomConnect 1 LIVEKIT_URL (lit "jwt2")].
Proof.
  destruct (connect_succeeds disconnected_again (lit "jwt2"))
    as (Hroom & _ & _ & _ & _ & Hattempts & _); [reflexivity|].
  split; [exact Hroom | exact Hattempts].
Defined.

(** A connect that fails.  Whichever awaited step of [connectToLiveKit]
    fails (a token response that is not ok, or a rejection of the fetch,
    of the JSON body, of the transport connect or of the microphone
    publish), the error is caught: it is logged once as "Connection
    Failed: ..." with the error's message, nothing is retried, the call
    is gone, [room], [isConnected] and [isMicOn] stay as they were, and
    the click handler still starts the camera. *)
Theorem connect_fails s (tid : nat) k (o : Outcome) (message : jsstring) :
  pending s !! tid = Some k → connect_failure k o = Some message →
  let r := step (Settled tid o) s in
  r.2 = [ConsoleError message;
         AddLog (lit "Connection Failed: " ++ message) LogError;
         ClassAdd connectionStatus (lit "error");
         CameraStart; SetCanvasSize 640 480]
  ∧ connect_attempts r.2 = []
  ∧ pending r.1 !! tid = None
  ∧ room r.1 = room s ∧ isConnected r.1 = isConnected s
  ∧ isMicOn r.1 = isMicOn s.
Proof.
  intros Hk Hfail. cbv zeta. unfold step, settle. rewrite Hk.
  destruct k, o as [[]|token| |msg]; simpl in Hfail; simplify_eq; simpl;
    split_and!; try reflexivity; apply lookup_delete_eq.
Qed.

Lemma connect_fails_witness :
  (step (Settled 0 (Response false)) (step Click_connectBtn init).1).2
  = [ConsoleError (lit "Failed to get token");
     AddLog (lit "Connection Failed: Failed to get token") LogError;
     ClassAdd connectionStatus (lit "error");
     CameraStart; SetCanvasSize 640 480]
  ∧ lifecycle (step (Settled 0 (Response false))
                 (step Click_connectBtn init).1).1 = DISCONNECTED.
Proof.
  destruct (connect_fails (step Click_connectBtn init).1 0 K_fetch
              (Response false) (lit "Failed to get token"))
    as (Hfx & _); [reflexivity | reflexivity |].
  split; [exact Hfx | reflexivity].
Defined.

End SessionHistories.

(* ===================================================================== *)
(** * Edges of the callback and of the chat dispatcher *)
(* ===================================================================== *)

Section Edges.

Implicit Types (s : State) (text : jsstring)
  (hands : list (list Landmark.t)) (now : nat → Z).

(** A frame too short to classify ends the callback: the hands before it
    have been processed, the hands after it are never looked at, and the
    trace ends with the uncaught TypeError, the canvas not restored. *)
Theorem onResults_stops_at_short_frame hs1 (bad : list Landmark.t) hs2 now s :
  Forall (λ h, is_Some (detectGesture h)) hs1 →
  detectGesture bad = None →
  onResults (Some (hs1 ++ bad :: hs2)) now s
  = onResults (Some (hs1 ++ [bad])) now s
  ∧ (onResults (Some (hs1 ++ bad :: hs2)) now s).1
    = (onResults (Some hs1) now s).1
  ∧ last (onResults (Some (hs1 ++ bad :: hs2)) now s).2
    = Some (Uncaught (lit "TypeError")).
Proof.
  intros Hall Hbad. unfold onResults.
  rewrite (forHands_app hs1 (bad :: hs2) now 0 s Hall).
  rewrite (forHands_app hs1 [bad] now 0 s Hall).
  destruct (forHands hs1 now 0 s) as [[s1 fx1] ok1].
  rewrite (forHands_throw bad hs2 now (0 + length hs1) s1 Hbad).
  rewrite (forHands_throw bad [] now (0 + length hs1) s1 Hbad).
  split; [reflexivity|]. split; [reflexivity|].
  cbn [snd]. rewrite app_nil_r.
  replace (CanvasDrawImage
           :: fx1 ++ [CanvasDrawHand bad; Uncaught (lit "TypeError")])
    with ((CanvasDrawImage :: fx1 ++ [CanvasDrawHand bad])
          ++ [Uncaught (lit "TypeError")]).
  - apply last_snoc.
  - simpl. rewrite <- app_assoc. reflexivity.
Qed.

Lemma onResults_stops_at_short_frame_witness :
  onResults (Some ([open_hand] ++ take 20 open_hand :: [fist_hand]))
            (λ k, 5000 + 3000 * Z.of_nat k)%Z online
  = onResults (Some ([open_hand] ++ [take 20 open_hand]))
              (λ k, 5000 + 3000 * Z.of_nat k)%Z online
  ∧ gestureState
      (onResults (Some ([open_hand] ++ take 20 open_hand :: [fist_hand]))
                 (λ k, 5000 + 3000 * Z.of_nat k)%Z online).1
    = (Open_Palm, 5000%Z).
Proof.
  destruct (onResults_stops_at_short_frame [open_hand] (take 20 open_hand)
              [fist_hand] (λ k, 5000 + 3000 * Z.of_nat k)%Z online)
    as (Hsame & Hstate & _).
  - apply List.Forall_cons; [eexists; reflexivity | apply List.Forall_nil].
  - reflexivity.
  - split; [exact Hsame|]. rewrite Hstate. reflexivity.
Defined.

Lemma trimStart_blank_app (l text : jsstring) :
  blank l → trimStart (l ++ text) = trimStart text.
Proof.
  unfold blank. induction 1 as [|c l Hc _ IH]; [reflexivity|].
  simpl. rewrite Hc. exact IH.
Qed.

Lemma trimStart_blank text : blank text → trimStart text = [].
Proof.
  intros Hb. rewrite <- (app_nil_r text) at 1.
  rewrite trimStart_blank_app by exact Hb. reflexivity.
Qed.

Lemma trimStart_app_keep text (r : jsstring) :
  trimStart text ≠ [] → trimStart (text ++ r) = trimStart text ++ r.
Proof.
  induction text as [|c rest IH]; simpl; [congruence|].
  destruct (isWhiteSpace c); [exact IH | reflexivity].
Qed.

Lemma trimEnd_app_blank text (r : jsstring) :
  blank r → trimEnd (text ++ r) = trimEnd text.
Proof.
  intros Hb. unfold trimEnd. rewrite reverse_app.
  rewrite trimStart_blank_app; [reflexivity|].
  unfold blank. apply Forall_reverse. exact Hb.
Qed.

Lemma trim_pad (l text r : jsstring) :
  blank l → blank r → trim (l ++ text ++ r) = trim text.
Proof.
  intros Hl Hr. unfold trim. rewrite (trimStart_blank_app l) by exact Hl.
  destruct (trimStart text) as [|c rest] eqn:Hstart.
  - destruct (trimStart_split text) as (l' & Heq & Hl').
    rewrite Hstart, app_nil_r in Heq. subst l'.
    rewrite trimStart_blank; [reflexivity|].
    unfold blank in *. apply Forall_app. split; assumption.
  - rewrite trimStart_app_keep by (rewrite Hstart; discriminate).
    rewrite Hstart. apply trimEnd_app_blank. exact Hr.
Qed.

(** White space around the text does not change what is sent: the text
    box padded with blanks on either side produces the same log line and
    the same message; and the text that goes out is itself left alone by
    [trim]. *)
Theorem sendChatMessage_ignores_padding s (l text r : jsstring) :
  blank l → blank r →
  (sendChatMessage (set_chatInput_value (l ++ text ++ r) s)).1.2
  = (sendChatMessage (set_chatInput_value text s)).1.2
  ∧ trim (trim text) = trim text.
Proof.
  intros Hl Hr. split.
  - unfold sendChatMessage. simpl. rewrite (trim_pad l text r Hl Hr).
    destruct (trim text), (room s); reflexivity.
  - destruct (trim_split text) as (l' & r' & Heq & Hl' & Hr').
    rewrite Heq at 2. symmetry. apply trim_pad; assumption.
Qed.

Lemma sendChatMessage_ignores_padding_witness :
  (sendChatMessage
     (set_chatInput_value (lit "  " ++ lit "hi there" ++ lit " ") online)).1.2
  = (sendChatMessage (set_chatInput_value (lit "hi there") online)).1.2
  ∧ trim (trim (lit "hi there")) = trim (lit "hi there").
Proof.
  apply (sendChatMessage_ignores_padding online (lit "  ") (lit "hi there")
           (lit " "));
    unfold blank; repeat (apply List.Forall_cons || apply List.Forall_nil);
    reflexivity.
Defined.

(** A send in flight.  [sendChatMessage] clears the text box only after
    [publishData] resolves.  So with a room and a text that is not
    blank: a second click before that publishes the same text a second
    time; when the publish resolves the box is emptied, whatever was
    typed in the meantime; and when it rejects the box keeps its content
    and the rejection is left uncaught. *)
Theorem send_in_flight s (r : RoomId) (v1 v2 : jsstring) :
  room s = Some r → trim v1 ≠ [] →
  let tid := nextTask s in
  let typed := run [Input_chatInput v1; Click_sendBtn; Input_chatInput v2] s in
  outbound (run [Input_chatInput v1; Click_sendBtn; Click_sendBtn] s).2
  = [chat_message (trim v1); chat_message (trim v1)]
  ∧ outbound typed.2 = [chat_message (trim v1)]
  ∧ chatInput_value typed.1 = v2
  ∧ step (Settled tid Fulfilled) typed.1
    = (set_pending (delete tid (pending typed.1))
         (set_chatInput_value [] typed.1), [])
  ∧ ∀ message,
      step (Settled tid (Rejected message)) typed.1
      = (set_pending (delete tid (pending typed.1)) typed.1,
         [Uncaught message]).
Proof.
  intros Hr Hv tid.
  assert (∀ s0, room s0 = Some r → chatInput_value s0 = v1 →
          step Click_sendBtn s0
          = (spawn K_publish s0,
             [AddLog (lit "You: " ++ trim v1) LogUser;
              PublishData r (trim v1) (lit "chat_message")])) as Hsend.
  { intros s0 Hr0 Hv0. unfold step, sendChatMessage. rewrite Hr0, Hv0.
    destruct (trim v1); [congruence | reflexivity]. }
  assert (step (Input_chatInput v1) s = (set_chatInput_value v1 s, []))
    as E1 by reflexivity.
  pose proof (Hsend (set_chatInput_value v1 s) Hr eq_refl) as E2.
  pose proof (Hsend (spawn K_publish (set_chatInput_value v1 s)) Hr eq_refl)
    as E2'.
  assert (step (Input_chatInput v2) (spawn K_publish (set_chatInput_value v1 s))
          = (set_chatInput_value v2
               (spawn K_publish (set_chatInput_value v1 s)), []))
    as E3 by reflexivity.
  intros typed. subst typed. split.
  { rewrite (run_step _ _ _ _ _ E1), (run_step _ _ _ _ _ E2),
      (run_step _ _ _ _ _ E2'). reflexivity. }
  rewrite (run_step _ _ _ _ _ E1), (run_step _ _ _ _ _ E2),
    (run_step _ _ _ _ _ E3).
  cbn [run fst snd].
  split; [reflexivity|]. split; [reflexivity|].
  assert (pending (set_chatInput_value v2
                     (spawn K_publish (set_chatInput_value v1 s))) !! tid
          = Some K_publish) as Hk by apply lookup_insert_eq.
  split; [|intros message]; unfold step, settle; rewrite Hk; reflexivity.
Qed.

Lemma send_in_flight_witness :
  outbound (run [Input_chatInput (lit "hi"); Click_sendBtn; Click_sendBtn]
                online).2
  = [chat_message (lit "hi"); chat_message (lit "hi")]
  ∧ chatInput_value
      (run [Input_chatInput (lit "hi"); Click_sendBtn;
            Input_chatInput (lit "next"); Settled 1 Fulfilled] online).1 = [].
Proof.
  destruct (send_in_flight online 0 (lit "hi") (lit "next"))
    as (Htwice & _ & _ & Hdone & _); [reflexivity | discriminate |].
  split; [exact Htwice | reflexivity].
Defined.

End Edges.
